(** * PowerMCP, pandapower tools: the N-1 contingency analysis

    A shallow embedding of [run_contingency_analysis] and of the network
    accessor [_get_network] of [pandapower_tools/tools.py], with the
    properties of the contingency report proved over it.

    The power-flow solver [pp.runpp] is an external collaborator: it is a
    parameter of the development.  Networks are Python objects that the
    solver and the [.at] assignment mutate in place, and [deepcopy] creates
    new ones, so the embedding threads an object store through a small
    state-and-exception monad. *)

From Stdlib Require Import ZArith String List Bool Lia.
From Stdlib Require Import Floats.PrimFloat.
From stdpp Require Import base option list gmap strings pretty.
From Stdlib Require Floats.SpecFloat Floats.FloatOps Floats.FloatAxioms.
From stdpp Require Import sorting.

#[local] Set Warnings "-inexact-float,-register-all".

Local Open Scope string_scope.
Local Open Scope Z_scope.
Local Open Scope list_scope.

(** ** Exceptions

    Only the [Exception] hierarchy is modelled.  A handler observes two things
    of an exception: whether it is an instance of [RuntimeError] (the first
    [except] clause of the tools) and the text [str(e)]. *)

Record exn := mkExn { is_RuntimeError : bool; str : string }.

Definition RuntimeError (msg : string) : exn := mkExn true msg.

(** ** Returned values

    The tools return JSON-like dictionaries.  A dictionary literal is kept as
    the list of its items in the order they are written. *)

Inductive value :=
| VStr (s : string)
| VBool (b : bool)
| VInt (z : Z)
| VFloat (f : float)
| VList (l : list value)
| VDict (d : list (string * value)).

Abbreviation Dict := (list (string * value)).

Fixpoint dict_get (k : string) (d : Dict) : option value :=
  match d with
  | [] => None
  | (k', v) :: d' => if String.eqb k k' then Some v else dict_get k d'
  end.

Definition has_key (k : string) (d : Dict) : bool :=
  match dict_get k d with Some _ => true | None => false end.

(** ** Networks

    An element table is a frame of rows keyed by an index label, kept in the
    order of the frame.  Every element row has the [in_service] flag; the
    type-specific electrical attributes are the other columns. *)

Record Row := mkRow { in_service : bool; attrs : gmap string float }.

Abbreviation Table := (list (Z * Row)).

Module ResBus.
Record row := mk { vm_pu : float }.
End ResBus.

Module ResLine.
Record row := mk { loading_percent : float; pl_mw : float }.
End ResLine.

Module ResTrafo.
Record row := mk { loading_percent : float }.
End ResTrafo.

(** A pandapower network.  [line], [trafo] and [gen] are the tables the
    function reads as attributes; [elements] holds the other element tables
    of the network dictionary ([bus], [load], [ext_grid], ...), which item
    access by name reaches as well.  The [res_*] frames and [converged] are
    the result fields the solver writes. *)

Record Net := mkNet {
  line : Table;
  trafo : Table;
  gen : Table;
  elements : gmap string Table;
  res_bus : list (Z * ResBus.row);
  res_line : list (Z * ResLine.row);
  res_trafo : list (Z * ResTrafo.row);
  converged : bool
}.

(** The topology of a network: its element tables, that is the set of
    elements with their [in_service] flags and attributes. *)

Definition topology (n : Net) : Table * Table * Table * gmap string Table :=
  (line n, trafo n, gen n, elements n).

(** [net[key]] on the element tables.  A key that names no element table
    raises [KeyError]; the other entries of the network dictionary (result
    frames, options, scalars) are not modelled as items: for their keys
    the item access of the source succeeds, where this function gives
    [None].  It is exact for the keys of the element tables and for the
    keys that the network dictionary does not hold. *)

Definition getitem (n : Net) (key : string) : option Table :=
  if String.eqb key "line" then Some (line n)
  else if String.eqb key "trafo" then Some (trafo n)
  else if String.eqb key "gen" then Some (gen n)
  else elements n !! key.

(** The table [net[key]] is a mutable frame; [with_table] is the network
    after that frame has been changed in place. *)

Definition with_table (n : Net) (key : string) (t : Table) : Net :=
  if String.eqb key "line" then
    mkNet t (trafo n) (gen n) (elements n) (res_bus n) (res_line n) (res_trafo n) (converged n)
  else if String.eqb key "trafo" then
    mkNet (line n) t (gen n) (elements n) (res_bus n) (res_line n) (res_trafo n) (converged n)
  else if String.eqb key "gen" then
    mkNet (line n) (trafo n) t (elements n) (res_bus n) (res_line n) (res_trafo n) (converged n)
  else
    mkNet (line n) (trafo n) (gen n) (<[key := t]> (elements n))
          (res_bus n) (res_line n) (res_trafo n) (converged n).

Definition has_label (idx : Z) (t : Table) : bool :=
  existsb (fun r => Z.eqb (fst r) idx) t.

(** [t.at[idx, 'in_service'] = False].  On a label of the frame the flag of
    that row is overwritten; on a label that is not in the frame pandas
    enlarges the frame by a row with that label, the flag set and every other
    column missing.  The labels of a frame are 64-bit integers: on an
    absent label outside [int64_label] the assignment raises instead, which
    this function does not show; it is exact for the indices within
    [int64_label]. *)

Definition int64_label (idx : Z) : Prop := - 2 ^ 63 <= idx < 2 ^ 63.

Definition at_in_service_False (idx : Z) (t : Table) : Table :=
  if has_label idx t then
    List.map (fun r => if Z.eqb (fst r) idx
                       then (fst r, mkRow false (attrs (snd r))) else r) t
  else t ++ [(idx, mkRow false ∅)].

(** ** Series reductions

    [Series.sum], [Series.max] and [Series.min] skip missing values; the sum
    of nothing is 0.0 and the extremum of nothing is NaN.  The sum is taken
    left to right; numpy adds pairwise on frames of eight rows or more, and
    its sum can differ from this one in the last bits.  The statements read
    the sum as the value of [base_case_losses_mw] only, never its bits. *)

Definition is_nan (f : float) : bool := negb (PrimFloat.eqb f f).

Definition series_sum (l : list float) : float :=
  fold_left (fun acc x => if is_nan x then acc else PrimFloat.add acc x) l 0%float.

Definition series_max (l : list float) : float :=
  match List.filter (fun x => negb (is_nan x)) l with
  | [] => PrimFloat.nan
  | x :: r => fold_left (fun m y => if PrimFloat.ltb m y then y else m) r x
  end.

Definition series_min (l : list float) : float :=
  match List.filter (fun x => negb (is_nan x)) l with
  | [] => PrimFloat.nan
  | x :: r => fold_left (fun m y => if PrimFloat.ltb y m then y else m) r x
  end.

(** ** Violation checks of a solved case *)

Definition vm_pu_violation (v : float) : bool :=
  PrimFloat.ltb v 0.95%float || PrimFloat.ltb 1.05%float v.

Definition loading_violation (p : float) : bool :=
  PrimFloat.ltb 100%float p.

(** [res_bus[(res_bus.vm_pu < 0.95) | (res_bus.vm_pu > 1.05)].index.tolist()] *)

Definition voltage_violations (n : Net) : list Z :=
  List.map fst
    (List.filter (fun r => vm_pu_violation (ResBus.vm_pu (snd r))) (res_bus n)).

(** [res_line[res_line.loading_percent > 100].index.tolist()] *)

Definition loading_violations (n : Net) : list Z :=
  List.map fst
    (List.filter (fun r => loading_violation (ResLine.loading_percent (snd r)))
       (res_line n)).

(** ** The object store and the monad of the tools

    [objs] is the store of network objects, addressed by location;
    [PANDAPOWER_AVAILABLE] and [_current_net] are the globals of the
    module. *)

Definition loc := nat.

Record World := mkWorld {
  PANDAPOWER_AVAILABLE : bool;
  _current_net : option loc;
  objs : list Net
}.

Definition set_objs (w : World) (o : list Net) : World :=
  mkWorld (PANDAPOWER_AVAILABLE w) (_current_net w) o.

Inductive result (A : Type) :=
| Ok (a : A)
| Raise (e : exn).

Arguments Ok {A} a.
Arguments Raise {A} e.

Definition M (A : Type) : Type := World -> result A * World.

Definition ret {A} (a : A) : M A := fun w => (Ok a, w).

Definition raise {A} (e : exn) : M A := fun w => (Raise e, w).

Definition bind {A B} (m : M A) (k : A -> M B) : M B :=
  fun w => match m w with
           | (Ok a, w') => k a w'
           | (Raise e, w') => (Raise e, w')
           end.

(** [try: m  except Exception as e: h e] *)

Definition try_except {A} (m : M A) (h : exn -> M A) : M A :=
  fun w => match m w with
           | (Ok a, w') => (Ok a, w')
           | (Raise e, w') => h e w'
           end.

#[global] Instance M_ret : MRet M := @ret.
#[global] Instance M_bind : MBind M := fun A B k m => bind m k.

(** A location outside the store has no counterpart in Python, where a name
    always refers to a live object.  The model raises there, so that every
    operation is total; the statements about a loaded network take the
    object of [_current_net] to be in the store. *)

Definition dangling : exn := mkExn false "no object at this location".

Definition load (l : loc) : M Net :=
  fun w => match objs w !! l with
           | Some n => (Ok n, w)
           | None => (Raise dangling, w)
           end.

Definition store (l : loc) (n : Net) : M unit :=
  fun w => (Ok tt, set_objs w (<[l := n]> (objs w))).

(** [net.deepcopy()]: a new object, equal to the copied one. *)

Definition alloc (n : Net) : M loc :=
  fun w => (Ok (length (objs w)), set_objs w (objs w ++ [n])).

Definition deepcopy (l : loc) : M loc :=
  n ← load l;
  alloc n.

(** ** The network accessor *)

Definition _get_network : M loc :=
  fun w => match _current_net w with
           | None =>
               (Raise (RuntimeError
                  "No pandapower network is currently loaded. Please create or load a network first."), w)
           | Some l => (Ok l, w)
           end.

Definition _set_network (net : loc) : M unit :=
  fun w => (Ok tt, mkWorld (PANDAPOWER_AVAILABLE w) (Some net) (objs w)).

(** ** The contingency analysis engine *)

(** What a call of the solver does to the network it is given: it returns
    or raises, and in both cases it may have written the network. *)

Inductive SolveOutcome :=
| Returns (n' : Net)
| Raises (e : exn) (n' : Net).

Definition net_after (o : SolveOutcome) : Net :=
  match o with Returns n' => n' | Raises _ n' => n' end.

Section Engine.

(** [pp.runpp], the external power-flow solver. *)
Variable runpp : Net -> SolveOutcome.

(** Python's [repr] of a string: [str] of a [KeyError] is the [repr] of
    the missing key. *)
Variable repr : string -> string.

Definition KeyError (key : string) : exn := mkExn false (repr key).

(** [pp.runpp(net)] on the object at [l], written in place. *)

Definition pp_runpp (l : loc) : M unit :=
  n ← load l;
  match runpp n with
  | Returns n' => store l n'
  | Raises e n' => store l n';; raise e
  end.

(** [net[contingency_type].at[idx, 'in_service'] = False] *)

Definition set_out_of_service (l : loc) (contingency_type : string) (idx : Z)
  : M unit :=
  n ← load l;
  match getitem n contingency_type with
  | None => raise (KeyError contingency_type)
  | Some t =>
      store l (with_table n contingency_type (at_in_service_False idx t))
  end.

(** The name of a case, [f"{contingency_type}_{idx}"]. *)

Definition contingency_name (contingency_type : string) (idx : Z) : string :=
  contingency_type +:+ "_" +:+ pretty idx.

(** The entry appended for a case whose solve returned. *)

Definition solved_entry (contingency_type : string) (idx : Z) (c : Net) : Dict :=
  [ ("contingency", VStr (contingency_name contingency_type idx));
    ("converged", VBool (converged c));
    ("voltage_violations", VList (List.map VInt (voltage_violations c)));
    ("loading_violations", VList (List.map VInt (loading_violations c)));
    ("max_loading_percent",
       VFloat (series_max (List.map (fun r => ResLine.loading_percent (snd r)) (res_line c))));
    ("min_voltage_pu",
       VFloat (series_min (List.map (fun r => ResBus.vm_pu (snd r)) (res_bus c))));
    ("max_voltage_pu",
       VFloat (series_max (List.map (fun r => ResBus.vm_pu (snd r)) (res_bus c)))) ].

(** The entry appended by the [except] clause of a case. *)

Definition failed_entry (contingency_type : string) (idx : Z) (e : exn) : Dict :=
  [ ("contingency", VStr (contingency_name contingency_type idx));
    ("converged", VBool false);
    ("error", VStr (str e)) ].

(** The body of the [for] loop. *)

Definition contingency_case (orig_net : loc) (contingency_type : string)
    (idx : Z) : M Dict :=
  contingency_net ← deepcopy orig_net;
  try_except
    (set_out_of_service contingency_net contingency_type idx;;
     pp_runpp contingency_net;;
     c ← load contingency_net;
     ret (solved_entry contingency_type idx c))
    (fun e => ret (failed_entry contingency_type idx e)).

(** [for idx in indices: ... results.append(...)] *)

Fixpoint contingency_loop (orig_net : loc) (contingency_type : string)
    (indices : list Z) (results : list Dict) : M (list Dict) :=
  match indices with
  | [] => ret results
  | idx :: rest =>
      r ← contingency_case orig_net contingency_type idx;
      contingency_loop orig_net contingency_type rest (results ++ [r])
  end.

Definition unknown_type (contingency_type : string) : Dict :=
  [ ("status", VStr "error");
    ("message", VStr ("Unknown contingency type: " +:+ contingency_type)) ].

(** The indices to analyze; [inl] is the early [return] of the function. *)

Definition resolve_indices (n : Net) (contingency_type : string)
    (element_indices : option (list Z)) : Dict + list Z :=
  match element_indices with
  | None =>
      if String.eqb contingency_type "line" then inr (List.map fst (line n))
      else if String.eqb contingency_type "trafo" then inr (List.map fst (trafo n))
      else if String.eqb contingency_type "gen" then inr (List.map fst (gen n))
      else inl (unknown_type contingency_type)
  | Some l => inr l
  end.

(** The base case: [(base_case_converged, base_losses)]. *)

Definition base_case (net : loc) : M (bool * float) :=
  try_except
    (pp_runpp net;;
     n ← load net;
     ret (converged n,
          series_sum (List.map (fun r => ResLine.pl_mw (snd r)) (res_line n))))
    (fun _ => ret (false, 0%float)).

Definition report (contingency_type : string) (indices : list Z)
    (base_case_converged : bool) (base_losses : float) (results : list Dict)
  : Dict :=
  [ ("status", VStr "success");
    ("message", VStr ("Contingency analysis completed for "
                      +:+ pretty (length indices) +:+ " "
                      +:+ contingency_type +:+ "(s)"));
    ("base_case_converged", VBool base_case_converged);
    ("base_case_losses_mw", VFloat base_losses);
    ("contingency_results", VList (List.map VDict results)) ].

(** The statements of the outer [try]. *)

Definition analysis (contingency_type : string)
    (element_indices : option (list Z)) : M Dict :=
  net ← _get_network;
  n ← load net;
  match resolve_indices n contingency_type element_indices with
  | inl d => ret d
  | inr indices =>
      base ← base_case net;
      orig_net ← deepcopy net;
      results ← contingency_loop orig_net contingency_type indices [];
      pp_runpp net;;
      ret (report contingency_type indices (fst base) (snd base) results)
  end.

(** The two [except] clauses of the outer [try]. *)

Definition analysis_failed (e : exn) : Dict :=
  if is_RuntimeError e then
    [ ("status", VStr "error"); ("message", VStr (str e)) ]
  else
    [ ("status", VStr "error");
      ("message", VStr ("Contingency analysis failed: " +:+ str e)) ].

Definition run_contingency_analysis (contingency_type : string)
    (element_indices : option (list Z)) : M Dict :=
  fun w =>
    if negb (PANDAPOWER_AVAILABLE w) then
      (Ok [ ("status", VStr "error");
            ("message", VStr "pandapower is not installed") ], w)
    else
      try_except (analysis contingency_type element_indices)
                 (fun e => ret (analysis_failed e)) w.

(** *** What one case computes

    The three functions below describe a case by the pristine network
    alone; [contingency_case] is proved to compute them. *)

(** The case network handed to the solver: the pristine network with the
    flag of [idx] cleared; [None] when the network has no such table. *)

Definition outage (orig : Net) (contingency_type : string) (idx : Z)
  : option Net :=
  match getitem orig contingency_type with
  | Some t => Some (with_table orig contingency_type (at_in_service_False idx t))
  | None => None
  end.

Definition case_entry (orig : Net) (contingency_type : string) (idx : Z) : Dict :=
  match outage orig contingency_type idx with
  | None => failed_entry contingency_type idx (KeyError contingency_type)
  | Some c =>
      match runpp c with
      | Returns c' => solved_entry contingency_type idx c'
      | Raises e _ => failed_entry contingency_type idx e
      end
  end.

(** The case object as the iteration leaves it. *)

Definition case_final (orig : Net) (contingency_type : string) (idx : Z) : Net :=
  match outage orig contingency_type idx with
  | None => orig
  | Some c => net_after (runpp c)
  end.

(** The base-case fields, by the outcome of the first solve. *)

Definition base_fields (o : SolveOutcome) : bool * float :=
  match o with
  | Returns n =>
      (converged n,
       series_sum (List.map (fun r => ResLine.pl_mw (snd r)) (res_line n)))
  | Raises _ _ => (false, 0%float)
  end.

End Engine.

(** The target index set of a call: every index of the collection when no
    list is passed, the passed list otherwise. *)

Definition target_indices (n : Net) (contingency_type : string)
    (element_indices : option (list Z)) : list Z :=
  match element_indices with
  | Some l => l
  | None =>
      match getitem n contingency_type with
      | Some t => List.map fst t
      | None => []
      end
  end.

(** The kinds the function accepts when it resolves the indices itself:
    lines, transformers and generators, under the names of their tables. *)

Definition accepted_kind (contingency_type : string) : bool :=
  String.eqb contingency_type "line"
  || String.eqb contingency_type "trafo"
  || String.eqb contingency_type "gen".

(** The entries of a report, when the value is one. *)

Definition contingency_results (d : Dict) : option (list value) :=
  match dict_get "contingency_results" d with
  | Some (VList l) => Some l
  | _ => None
  end.

(** A returned dictionary has a status: "success", or "error" with a
    message. *)

Definition has_status (d : Dict) : Prop :=
  dict_get "status" d = Some (VStr "success")
  \/ (dict_get "status" d = Some (VStr "error")
      /\ exists msg, dict_get "message" d = Some (VStr msg)).

(** ** Test fixtures

    A small solver and three networks, on which the statements below are
    evaluated.  The solver raises when no line is in service and reports
    violations when exactly one is. *)

Definition in_service_count (t : Table) : nat :=
  length (List.filter (fun r => in_service (snd r)) t).

Definition not_converged : exn :=
  mkExn false "Power Flow nr did not converge after 10 iterations!".

Definition solved_by_toy (n : Net) : Net :=
  let stressed := Nat.leb (in_service_count (line n)) 1 in
  mkNet (line n) (trafo n) (gen n) (elements n)
    (List.map (fun r => (fst r, ResBus.mk (if stressed then 0.93 else 1)%float))
       (default [] (elements n !! "bus")))
    (List.map (fun r => (fst r,
        if in_service (snd r)
        then ResLine.mk (if stressed then 120 else 60)%float 0.05%float
        else ResLine.mk 0%float 0%float)) (line n))
    (List.map (fun r => (fst r, ResTrafo.mk (if stressed then 150 else 80)%float))
       (trafo n))
    true.

Definition failed_by_toy (n : Net) : Net :=
  mkNet (line n) (trafo n) (gen n) (elements n) [] [] [] false.

Definition toy_runpp (n : Net) : SolveOutcome :=
  if Nat.eqb (in_service_count (line n)) 0
  then Raises not_converged (failed_by_toy n)
  else Returns (solved_by_toy n).

(** [repr] on a key without quotes or escapes. *)

Definition quoted (s : string) : string := "'" +:+ s +:+ "'".

Definition on : Row := mkRow true ∅.
Definition off : Row := mkRow false ∅.

Definition buses : gmap string Table :=
  <["bus" := [(0, on); (1, on); (2, on)]]>
    (<["load" := [(0, on)]]> (<["ext_grid" := [(0, on)]]> ∅)).

(** Three buses, two lines, one transformer. *)
Definition example_net : Net :=
  mkNet [(0, on); (1, on)] [(7, on)] [] buses [] [] [] false.

(** The same with line 1 out of service: the outage of line 0 islands it. *)
Definition weak_net : Net :=
  mkNet [(0, on); (1, off)] [(7, on)] [] buses [] [] [] false.

(** No line in service: the solver never converges on it. *)
Definition dead_net : Net :=
  mkNet [(0, off)] [] [] buses [] [] [] false.

Definition world_of (n : Net) : World := mkWorld true (Some 0%nat) [n].

(** The example network as the base-case solve leaves it, and its two line
    outages as they are handed to the solver. *)
Definition example_pristine : Net := solved_by_toy example_net.

Definition example_case_0 : Net :=
  with_table example_pristine "line" [(0, off); (1, on)].

Definition example_case_1 : Net :=
  with_table example_pristine "line" [(0, on); (1, off)].

(** ** The order of the floating-point values

    The comparisons of binary64 values, read through their specification:
    a value that is not NaN has a key, and [<] on such values is the
    lexicographic order of the keys. *)

Definition float_key (x : SpecFloat.spec_float) : Z * Z * Z :=
  match x with
  | SpecFloat.S754_nan => (0, 0, 0)
  | SpecFloat.S754_infinity true => (-2, 0, 0)
  | SpecFloat.S754_infinity false => (2, 0, 0)
  | SpecFloat.S754_zero _ => (0, 0, 0)
  | SpecFloat.S754_finite true m e => (-1, - e, - Z.pos m)
  | SpecFloat.S754_finite false m e => (1, e, Z.pos m)
  end.

Definition key_lt (a b : Z * Z * Z) : Prop :=
  fst (fst a) < fst (fst b)
  \/ (fst (fst a) = fst (fst b)
      /\ (snd (fst a) < snd (fst b)
          \/ (snd (fst a) = snd (fst b) /\ snd a < snd b))).

Definition key_of (x : float) : Z * Z * Z := float_key (FloatOps.Prim2SF x).

Definition is_number (x : float) : Prop :=
  FloatOps.Prim2SF x <> SpecFloat.S754_nan.

(** ** The catalogue of built-in networks

    [inspect.getmembers(pp_networks)] is the list of the members of the
    module with their names.  Of a member the discovery reads whether it is
    callable and, through its signature, the test
    [p.default != inspect.Parameter.empty] of every parameter; the tools
    call it without arguments.  [signature] is [None] when reading the
    signature raises [ValueError] or [TypeError].  A call returns a network
    or raises. *)

(** The test of one parameter as [all] reads it: its truth value, false for
    a parameter without default; or no truth value, when taking it raises
    [ValueError] or [TypeError], as it does for a default that is an array
    of several elements.  A comparison that raises another exception is not
    modelled. *)

Inductive DefaultTest :=
| Truth (b : bool)
| NoTruth.

Record Member := mkMember {
  callable : bool;
  signature : option (list DefaultTest);
  call : result Net
}.

(** The dictionary [network_functions], in the order of its keys. *)

Abbreviation Registry := (list (string * Member)).

Fixpoint registry_get (name : string) (d : Registry) : option Member :=
  match d with
  | [] => None
  | (k, v) :: d' => if String.eqb k name then Some v else registry_get name d'
  end.

(** [d[name] = obj]: the value of a key of the dictionary is replaced where
    the key stands, a new key is added at the end. *)

Fixpoint registry_set (name : string) (obj : Member) (d : Registry) : Registry :=
  match d with
  | [] => [(name, obj)]
  | (k, v) :: d' =>
      if String.eqb k name then (k, obj) :: d' else (k, v) :: registry_set name obj d'
  end.

(** [sub in s] *)

Fixpoint contains (sub s : string) : bool :=
  String.prefix sub s
  || match s with
     | EmptyString => false
     | String _ s' => contains sub s'
     end.

Definition known_networks : list string :=
  [ "iceland"; "GBnetwork"; "GBreducednetwork";
    "simple_four_bus_system"; "simple_mv_open_ring_net";
    "mv_oberrhein"; "panda_four_load_branch";
    "four_loads_with_branches_out"; "example_simple";
    "example_multivoltage"; "kb_extrem_landnetz_trafo";
    "kb_extrem_landnetz_freileitung"; "kb_extrem_vorstadtnetz_trafo";
    "kb_extrem_vorstadtnetz_kabel" ].

(** [all(...)] over the tests, in the order of the parameters: it stops at
    the first test that is false, and raises, here [None], at a test
    without truth value reached before. *)

Fixpoint all_defaults (tests : list DefaultTest) : option bool :=
  match tests with
  | [] => Some true
  | Truth true :: rest => all_defaults rest
  | Truth false :: _ => Some false
  | NoTruth :: _ => None
  end.

(** The [try] around the signature and the test: [False] when either
    raises. *)

Definition can_call_without_args (obj : Member) : bool :=
  match signature obj with
  | Some tests =>
      match all_defaults tests with
      | Some b => b
      | None => false
      end
  | None => false
  end.

Definition looks_like_network_creator (name : string) (obj : Member) : bool :=
  String.prefix "case" name
  || String.prefix "create_" name
  || existsb (String.eqb name) known_networks
  || can_call_without_args obj.

(** One turn of the loop over the members. *)

Definition discover (network_functions : Registry) (member : string * Member)
  : Registry :=
  if String.prefix "_" (fst member) then network_functions
  else if callable (snd member) then
    if looks_like_network_creator (fst member) (snd member)
    then registry_set (fst member) (snd member) network_functions
    else network_functions
  else network_functions.

(** The globals of the module: those of [World] and the cache. *)

Record Globals := mkGlobals {
  world : World;
  _NETWORK_FUNCTIONS_CACHE : option Registry
}.

Definition _get_available_networks (members : list (string * Member))
    (g : Globals) : Registry :=
  if negb (PANDAPOWER_AVAILABLE (world g)) then []
  else fold_left discover members [].

Definition _get_network_functions (members : list (string * Member))
    (g : Globals) : Registry * Globals :=
  match _NETWORK_FUNCTIONS_CACHE g with
  | None =>
      let network_functions := _get_available_networks members g in
      (network_functions, mkGlobals (world g) (Some network_functions))
  | Some network_functions => (network_functions, g)
  end.

(** [sorted] on strings: the order of Python's strings is that of their
    code points, which is the order of their UTF-8 bytes. *)

Definition str_le (a b : string) : Prop := String.leb a b = true.

#[global] Instance str_le_dec : RelDecision str_le :=
  fun a b => decide (String.leb a b = true).

Definition sorted (l : list string) : list string := merge_sort str_le l.

Record Categories := mkCategories {
  ieee_cases : list string;
  pegase_cases : list string;
  rte_cases : list string;
  cigre_networks : list string;
  other_networks : list string
}.

Definition not_installed : Dict :=
  [ ("status", VStr "error"); ("message", VStr "pandapower is not installed") ].

Definition names_value (l : list string) : value := VList (List.map VStr l).

Definition len {A} (l : list A) : value := VInt (Z.of_nat (length l)).

Section Catalogue.

(** [str.lower]. *)
Variable lower : string -> string.

(** The text of the [AttributeError] raised for a missing attribute. *)
Variable attribute_error_text : string -> string.

Definition AttributeError (name : string) : exn :=
  mkExn false (attribute_error_text name).

(** One turn of the loop of [get_available_networks]. *)

Definition categorize (c : Categories) (name : string) : Categories :=
  if String.prefix "case" name && contains "pegase" (lower name) then
    mkCategories (ieee_cases c) (pegase_cases c ++ [name]) (rte_cases c)
      (cigre_networks c) (other_networks c)
  else if String.prefix "case" name && contains "rte" (lower name) then
    mkCategories (ieee_cases c) (pegase_cases c) (rte_cases c ++ [name])
      (cigre_networks c) (other_networks c)
  else if String.prefix "case" name then
    mkCategories (ieee_cases c ++ [name]) (pegase_cases c) (rte_cases c)
      (cigre_networks c) (other_networks c)
  else if contains "cigre" (lower name) then
    mkCategories (ieee_cases c) (pegase_cases c) (rte_cases c)
      (cigre_networks c ++ [name]) (other_networks c)
  else
    mkCategories (ieee_cases c) (pegase_cases c) (rte_cases c)
      (cigre_networks c) (other_networks c ++ [name]).

(** The names of all the categories, and where the conditions of the loop
    put a name. *)

Definition all_categories (c : Categories) : list string :=
  ieee_cases c ++ pegase_cases c ++ rte_cases c ++ cigre_networks c ++ other_networks c.

Definition well_categorized (c : Categories) : Prop :=
  (forall name, In name (pegase_cases c) ->
     String.prefix "case" name = true /\ contains "pegase" (lower name) = true)
  /\ (forall name, In name (rte_cases c) ->
        String.prefix "case" name = true /\ contains "pegase" (lower name) = false
        /\ contains "rte" (lower name) = true)
  /\ (forall name, In name (ieee_cases c) ->
        String.prefix "case" name = true /\ contains "pegase" (lower name) = false
        /\ contains "rte" (lower name) = false)
  /\ (forall name, In name (cigre_networks c) ->
        String.prefix "case" name = false /\ contains "cigre" (lower name) = true)
  /\ (forall name, In name (other_networks c) ->
        String.prefix "case" name = false /\ contains "cigre" (lower name) = false).

Definition get_available_networks (members : list (string * Member))
    (g : Globals) : Dict * Globals :=
  if negb (PANDAPOWER_AVAILABLE (world g)) then (not_installed, g)
  else
    let '(network_functions, g') := _get_network_functions members g in
    let c := fold_left categorize (sorted (List.map fst network_functions))
               (mkCategories [] [] [] [] []) in
    ([ ("status", VStr "success");
       ("total_networks", len network_functions);
       ("categories",
        VDict [ ("ieee_cases", names_value (ieee_cases c));
                ("pegase_cases", names_value (pegase_cases c));
                ("rte_cases", names_value (rte_cases c));
                ("cigre_networks", names_value (cigre_networks c));
                ("other_networks", names_value (other_networks c)) ]);
       ("all_networks", names_value (sorted (List.map fst network_functions))) ],
     g').

(** The key under which [create_test_network] finds the network type: the
    type itself when it is a key, else the first key equal to it up to
    case.  The value is the one the dictionary holds for that key
    ([find_network_get]). *)

Definition find_network (network_functions : Registry) (network_type : string)
  : option (string * Member) :=
  match registry_get network_type network_functions with
  | Some obj => Some (network_type, obj)
  | None =>
      List.find (fun kv => String.eqb (lower (fst kv)) (lower network_type))
        network_functions
  end.

Definition unknown_network_type (network_functions : Registry)
    (network_type : string) : Dict :=
  [ ("status", VStr "error");
    ("message", VStr ("Unknown network type: " +:+ network_type));
    ("available_types", names_value (sorted (List.map fst network_functions)));
    ("hint", VStr "Use get_available_networks() to see all available network types") ].

(** [net.<name>], which raises when the network has no such table. *)

Definition getattr (n : Net) (name : string) : result Table :=
  match getitem n name with
  | Some t => Ok t
  | None => Raise (AttributeError name)
  end.

(** The [network_info] of [create_test_network]; the tables are read in the
    order of the dictionary literal. *)

Definition network_info (n : Net) : result Dict :=
  match getattr n "bus" with
  | Raise e => Raise e
  | Ok bus =>
      match getattr n "load" with
      | Raise e => Raise e
      | Ok load =>
          match getattr n "ext_grid" with
          | Raise e => Raise e
          | Ok ext_grid =>
              Ok [ ("buses", len bus);
                   ("lines", len (line n));
                   ("transformers", len (trafo n));
                   ("generators", len (gen n));
                   ("loads", len load);
                   ("ext_grids", len ext_grid);
                   ("shunts", match getitem n "shunt" with
                              | Some shunt => len shunt
                              | None => VInt 0
                              end) ]
          end
      end
  end.

(** [_current_net = obj()], for a call that returned the network [n]: the
    network is a new object, and [_current_net] refers to it. *)

Definition install (n : Net) (w : World) : World :=
  snd (_set_network (length (objs w)) (set_objs w (objs w ++ [n]))).

Definition create_test_network (members : list (string * Member))
    (network_type : string) (g : Globals) : Dict * Globals :=
  if negb (PANDAPOWER_AVAILABLE (world g)) then (not_installed, g)
  else
    let '(network_functions, g') := _get_network_functions members g in
    match find_network network_functions network_type with
    | None => (unknown_network_type network_functions network_type, g')
    | Some (key, obj) =>
        match call obj with
        | Raise e => ([ ("status", VStr "error"); ("message", VStr (str e)) ], g')
        | Ok n =>
            let g'' := mkGlobals (install n (world g')) (_NETWORK_FUNCTIONS_CACHE g') in
            match network_info n with
            | Raise e => ([ ("status", VStr "error"); ("message", VStr (str e)) ], g'')
            | Ok info =>
                ([ ("status", VStr "success");
                   ("message", VStr ("Created " +:+ key +:+ " test network"));
                   ("network_info", VDict info) ], g'')
            end
        end
    end.

End Catalogue.

(** ** Loading a network from a file

    [pp.from_json] and [pp.from_pickle] are external readers: a reader
    returns a network, raises [FileNotFoundError], or raises another
    exception. *)

Inductive ReadOutcome :=
| Read (n : Net)
| FileNotFoundError
| ReadError (e : exn).

(** [s.endswith(suffix)] *)

Fixpoint endswith (suffix s : string) : bool :=
  String.eqb suffix s
  || match s with
     | EmptyString => false
     | String _ s' => endswith suffix s'
     end.

Section LoadNetwork.

Variable from_json : string -> ReadOutcome.
Variable from_pickle : string -> ReadOutcome.
Variable attribute_error_text : string -> string.

(** The reader that the extension of the path selects, applied to the path. *)

Definition read_by_extension (file_path : string) : option ReadOutcome :=
  if endswith ".json" file_path then Some (from_json file_path)
  else if endswith ".p" file_path then Some (from_pickle file_path)
  else None.

(** The [network_info] of [load_network]. *)

Definition loaded_network_info (n : Net) : result Dict :=
  match getattr attribute_error_text n "bus" with
  | Raise e => Raise e
  | Ok bus =>
      match getattr attribute_error_text n "load" with
      | Raise e => Raise e
      | Ok load =>
          Ok [ ("buses", len bus);
               ("lines", len (line n));
               ("transformers", len (trafo n));
               ("generators", len (gen n));
               ("loads", len load) ]
      end
  end.

Definition load_network (file_path : string) (g : Globals) : Dict * Globals :=
  if negb (PANDAPOWER_AVAILABLE (world g)) then (not_installed, g)
  else
    match read_by_extension file_path with
    | None =>
        ([ ("status", VStr "error");
           ("message", VStr "Unsupported file format. Use .json or .p files.") ], g)
    | Some FileNotFoundError =>
        ([ ("status", VStr "error");
           ("message", VStr ("File not found: " +:+ file_path)) ], g)
    | Some (ReadError e) =>
        ([ ("status", VStr "error");
           ("message", VStr ("Failed to load network: " +:+ str e)) ], g)
    | Some (Read n) =>
        let g' := mkGlobals (install n (world g)) (_NETWORK_FUNCTIONS_CACHE g) in
        match loaded_network_info n with
        | Raise e =>
            ([ ("status", VStr "error");
               ("message", VStr ("Failed to load network: " +:+ str e)) ], g')
        | Ok info =>
            ([ ("status", VStr "success");
               ("message", VStr ("Network loaded successfully from " +:+ file_path));
               ("network_info", VDict info) ], g')
        end
    end.

End LoadNetwork.

(** Readers for the fixtures: one file of each format exists. *)

Definition example_from_json (file_path : string) : ReadOutcome :=
  if String.eqb file_path "grid.json" then Read example_net else FileNotFoundError.

Definition example_from_pickle (file_path : string) : ReadOutcome :=
  if String.eqb file_path "grid.p" then Read weak_net
  else ReadError (mkExn false "unpickling failed").

(** [str.lower] on ASCII letters, for the fixtures. *)

Definition ascii_lower (c : Ascii.ascii) : Ascii.ascii :=
  let n := Ascii.nat_of_ascii c in
  if (Nat.leb 65 n && Nat.leb n 90)%bool then Ascii.ascii_of_nat (n + 32) else c.

Fixpoint lowercase (s : string) : string :=
  match s with
  | EmptyString => EmptyString
  | String c s' => String (ascii_lower c) (lowercase s')
  end.

(** A text for the missing-attribute error of the fixtures. *)

Definition no_attribute (name : string) : string := name.

(** A module with two test cases, a CIGRE network, a private helper, a
    constant, and a function that needs an argument. *)

Definition creator (n : Net) : Member := mkMember true (Some []) (Ok n).

Definition example_members : list (string * Member) :=
  [ ("GBnetwork", creator weak_net);
    ("__name__", mkMember false None (Raise (mkExn false "'str' object is not callable")));
    ("_helper", creator dead_net);
    ("case1354pegase", creator example_net);
    ("case9", creator example_net);
    ("create_cigre_network_mv",
       mkMember true (Some [Truth true])
         (Raise (mkExn false "cigre data missing")));
    ("pi", mkMember false None (Raise (mkExn false "'float' object is not callable")));
    ("needs_argument", mkMember true (Some [Truth false]) (Raise (mkExn false "missing argument"))) ].

Definition fresh_globals : Globals := mkGlobals (mkWorld true None []) None.

(** * Properties *)

(** ** The monad and the store *)

Lemma bind_unfold {A B} (m : M A) (k : A -> M B) (w : World) :
  (m ≫= k) w =
  match m w with
  | (Ok a, w') => k a w'
  | (Raise e, w') => (Raise e, w')
  end.
Proof. reflexivity. Qed.

Lemma bind_Ok {A B} (m : M A) (k : A -> M B) (w w' : World) (a : A) :
  m w = (Ok a, w') -> (m ≫= k) w = k a w'.
Proof. intros H. rewrite bind_unfold, H. reflexivity. Qed.

Lemma bind_Raise {A B} (m : M A) (k : A -> M B) (w w' : World) (e : exn) :
  m w = (Raise e, w') -> (m ≫= k) w = (Raise e, w').
Proof. intros H. rewrite bind_unfold, H. reflexivity. Qed.

Lemma objs_set_objs (w : World) (o : list Net) : objs (set_objs w o) = o.
Proof. reflexivity. Qed.

Lemma set_objs_set_objs (w : World) (o o' : list Net) :
  set_objs (set_objs w o) o' = set_objs w o'.
Proof. reflexivity. Qed.

Lemma set_objs_id (w : World) : set_objs w (objs w) = w.
Proof. destruct w; reflexivity. Qed.

Lemma load_Some (w : World) (l : loc) (n : Net) :
  objs w !! l = Some n -> load l w = (Ok n, w).
Proof. intros H. unfold load. rewrite H. reflexivity. Qed.

Lemma deepcopy_Some (w : World) (l : loc) (n : Net) :
  objs w !! l = Some n ->
  deepcopy l w = (Ok (length (objs w)), set_objs w (objs w ++ [n])).
Proof.
  intros H. unfold deepcopy.
  rewrite (bind_Ok _ _ _ _ _ (load_Some w l n H)). reflexivity.
Qed.

Lemma lookup_snoc (o : list Net) (n : Net) : (o ++ [n]) !! length o = Some n.
Proof. rewrite lookup_app_r by lia. rewrite Nat.sub_diag. reflexivity. Qed.

Lemma insert_snoc (o : list Net) (n n' : Net) :
  <[length o := n']> (o ++ [n]) = o ++ [n'].
Proof.
  rewrite insert_app_r_alt by lia. rewrite Nat.sub_diag. reflexivity.
Qed.

Section EngineFacts.

Variable runpp : Net -> SolveOutcome.
Variable repr : string -> string.

Lemma pp_runpp_Some (w : World) (l : loc) (n : Net) :
  objs w !! l = Some n ->
  pp_runpp runpp l w =
  (match runpp n with Returns _ => Ok tt | Raises e _ => Raise e end,
   set_objs w (<[l := net_after (runpp n)]> (objs w))).
Proof.
  intros H. unfold pp_runpp.
  rewrite (bind_Ok _ _ _ _ _ (load_Some w l n H)).
  destruct (runpp n); reflexivity.
Qed.

Lemma set_out_of_service_Some (w : World) (l : loc) (n : Net)
    (ct : string) (idx : Z) :
  objs w !! l = Some n ->
  set_out_of_service repr l ct idx w =
  match outage n ct idx with
  | Some c => (Ok tt, set_objs w (<[l := c]> (objs w)))
  | None => (Raise (KeyError repr ct), w)
  end.
Proof.
  intros H. unfold set_out_of_service, outage.
  rewrite (bind_Ok _ _ _ _ _ (load_Some w l n H)).
  destruct (getitem n ct); reflexivity.
Qed.

(** One iteration appends one object to the store and touches nothing
    else; its entry and the object it leaves are functions of the pristine
    network and of the index. *)
Lemma contingency_case_spec (w : World) (orig_net : loc) (orig : Net)
    (ct : string) (idx : Z) :
  objs w !! orig_net = Some orig ->
  contingency_case runpp repr orig_net ct idx w =
  (Ok (case_entry runpp repr orig ct idx),
   set_objs w (objs w ++ [case_final runpp orig ct idx])).
Proof.
  intros H. unfold contingency_case.
  rewrite (bind_Ok _ _ _ _ _ (deepcopy_Some w orig_net orig H)).
  unfold try_except, case_entry, case_final.
  rewrite bind_unfold.
  rewrite (set_out_of_service_Some _ _ orig) by (simpl; apply lookup_snoc).
  destruct (outage orig ct idx) as [c|]; [|reflexivity].
  rewrite bind_unfold.
  rewrite (pp_runpp_Some _ _ c)
    by (simpl; rewrite insert_snoc; apply lookup_snoc).
  simpl. rewrite !insert_snoc.
  destruct (runpp c) as [c'|e c']; simpl.
  - rewrite bind_unfold.
    rewrite (load_Some _ _ c') by (simpl; apply lookup_snoc).
    reflexivity.
  - reflexivity.
Qed.

Lemma contingency_loop_spec (orig_net : loc) (orig : Net) (ct : string)
    (indices : list Z) :
  forall (results : list Dict) (w : World),
    objs w !! orig_net = Some orig ->
    contingency_loop runpp repr orig_net ct indices results w =
    (Ok (results ++ List.map (case_entry runpp repr orig ct) indices),
     set_objs w (objs w ++ List.map (case_final runpp orig ct) indices)).
Proof.
  induction indices as [|idx rest IH]; intros results w H; simpl.
  - rewrite !app_nil_r, set_objs_id. reflexivity.
  - rewrite (bind_Ok _ _ _ _ _ (contingency_case_spec w orig_net orig ct idx H)).
    rewrite IH.
    + simpl. rewrite <- !app_assoc. reflexivity.
    + simpl. apply lookup_app_l_Some. exact H.
Qed.

End EngineFacts.

Section CallFacts.

Variable runpp : Net -> SolveOutcome.
Variable repr : string -> string.

Lemma base_case_spec (w : World) (l : loc) (n : Net) :
  objs w !! l = Some n ->
  base_case runpp l w =
  (Ok (base_fields (runpp n)),
   set_objs w (<[l := net_after (runpp n)]> (objs w))).
Proof.
  intros H. unfold base_case, try_except. rewrite bind_unfold.
  rewrite (pp_runpp_Some runpp w l n H).
  pose proof (lookup_lt_Some _ _ _ H) as Hlt.
  destruct (runpp n) as [n'|e n']; simpl.
  - rewrite bind_unfold.
    rewrite (load_Some _ _ n') by (simpl; apply list_lookup_insert_eq; exact Hlt).
    reflexivity.
  - reflexivity.
Qed.

(** The outcome of a call that gets as far as the base case: the value it
    returns and the store it leaves, by the two solves of the live network
    and the cases of the pristine copy. *)
Lemma analysis_spec (w : World) (l : loc) (n : Net) (ct : string)
    (element_indices : option (list Z)) (indices : list Z) :
  _current_net w = Some l ->
  objs w !! l = Some n ->
  resolve_indices n ct element_indices = inr indices ->
  analysis runpp repr ct element_indices w =
  (match runpp (net_after (runpp n)) with
   | Returns _ =>
       Ok (report ct indices (fst (base_fields (runpp n))) (snd (base_fields (runpp n)))
             (List.map (case_entry runpp repr (net_after (runpp n)) ct) indices))
   | Raises e _ => Raise e
   end,
   set_objs w (<[l := net_after (runpp (net_after (runpp n)))]> (objs w)
               ++ net_after (runpp n)
                  :: List.map (case_final runpp (net_after (runpp n)) ct) indices)).
Proof.
  intros Hcur Hl Hres. unfold analysis.
  pose proof (lookup_lt_Some _ _ _ Hl) as Hlt.
  assert (Hget : _get_network w = (Ok l, w)) by (unfold _get_network; rewrite Hcur; reflexivity).
  rewrite (bind_Ok _ _ _ _ _ Hget).
  rewrite (bind_Ok _ _ _ _ _ (load_Some w l n Hl)).
  rewrite Hres.
  rewrite (bind_Ok _ _ _ _ _ (base_case_spec w l n Hl)).
  set (n1 := net_after (runpp n)).
  assert (H1 : objs (set_objs w (<[l := n1]> (objs w))) !! l = Some n1)
    by (simpl; apply list_lookup_insert_eq; exact Hlt).
  rewrite (bind_Ok _ _ _ _ _ (deepcopy_Some _ l n1 H1)).
  rewrite bind_unfold.
  rewrite (contingency_loop_spec runpp repr _ n1)
    by (simpl; apply lookup_snoc).
  simpl. rewrite bind_unfold.
  rewrite (pp_runpp_Some runpp _ l n1)
    by (simpl; apply lookup_app_l_Some, lookup_app_l_Some; exact H1).
  simpl.
  assert (Hst : <[l := net_after (runpp n1)]>
                  ((<[l := n1]> (objs w) ++ [n1])
                     ++ List.map (case_final runpp n1 ct) indices)
                = <[l := net_after (runpp n1)]> (objs w)
                    ++ n1 :: List.map (case_final runpp n1 ct) indices).
  { rewrite <- app_assoc. rewrite insert_app_l by (rewrite length_insert; exact Hlt).
    rewrite list_insert_insert_eq. reflexivity. }
  rewrite Hst.
  destruct (runpp n1); reflexivity.
Qed.

Lemma run_contingency_analysis_spec (w : World) (l : loc) (n : Net)
    (ct : string) (element_indices : option (list Z)) (indices : list Z) :
  PANDAPOWER_AVAILABLE w = true ->
  _current_net w = Some l ->
  objs w !! l = Some n ->
  resolve_indices n ct element_indices = inr indices ->
  run_contingency_analysis runpp repr ct element_indices w =
  (Ok (match runpp (net_after (runpp n)) with
       | Returns _ =>
           report ct indices (fst (base_fields (runpp n))) (snd (base_fields (runpp n)))
             (List.map (case_entry runpp repr (net_after (runpp n)) ct) indices)
       | Raises e _ => analysis_failed e
       end),
   set_objs w (<[l := net_after (runpp (net_after (runpp n)))]> (objs w)
               ++ net_after (runpp n)
                  :: List.map (case_final runpp (net_after (runpp n)) ct) indices)).
Proof.
  intros Hav Hcur Hl Hres. unfold run_contingency_analysis, try_except.
  rewrite Hav. simpl.
  rewrite (analysis_spec w l n ct element_indices indices Hcur Hl Hres).
  destruct (runpp (net_after (runpp n))); reflexivity.
Qed.

(** The early return on an unknown kind leaves the store as it was. *)
Lemma run_contingency_analysis_rejected (w : World) (l : loc) (n : Net)
    (ct : string) (element_indices : option (list Z)) (d : Dict) :
  PANDAPOWER_AVAILABLE w = true ->
  _current_net w = Some l ->
  objs w !! l = Some n ->
  resolve_indices n ct element_indices = inl d ->
  run_contingency_analysis runpp repr ct element_indices w = (Ok d, w).
Proof.
  intros Hav Hcur Hl Hres. unfold run_contingency_analysis, try_except, analysis.
  rewrite Hav. simpl.
  assert (Hget : _get_network w = (Ok l, w)) by (unfold _get_network; rewrite Hcur; reflexivity).
  rewrite (bind_Ok _ _ _ _ _ Hget).
  rewrite (bind_Ok _ _ _ _ _ (load_Some w l n Hl)).
  rewrite Hres. reflexivity.
Qed.

Lemma run_contingency_analysis_no_network (w : World) (ct : string)
    (element_indices : option (list Z)) :
  PANDAPOWER_AVAILABLE w = true ->
  _current_net w = None ->
  run_contingency_analysis runpp repr ct element_indices w =
  (Ok [ ("status", VStr "error");
        ("message", VStr "No pandapower network is currently loaded. Please create or load a network first.") ],
   w).
Proof.
  intros Hav Hcur. unfold run_contingency_analysis, try_except, analysis.
  rewrite Hav. simpl. rewrite bind_unfold. unfold _get_network. rewrite Hcur.
  reflexivity.
Qed.

End CallFacts.

(** ** Reading a report *)

Lemma map_fmap {A B} (f : A -> B) (l : list A) : List.map f l = f <$> l.
Proof. induction l as [|a l IH]; simpl; [reflexivity | rewrite IH; reflexivity]. Qed.

Lemma lookup_map {A B} (f : A -> B) (l : list A) (k : nat) :
  List.map f l !! k = f <$> (l !! k).
Proof. rewrite map_fmap. apply list_lookup_fmap. Qed.

Lemma report_status (ct : string) (indices : list Z) (b : bool) (x : float)
    (results : list Dict) :
  dict_get "status" (report ct indices b x results) = Some (VStr "success").
Proof. reflexivity. Qed.

Lemma report_results (ct : string) (indices : list Z) (b : bool) (x : float)
    (results : list Dict) :
  contingency_results (report ct indices b x results) = Some (List.map VDict results).
Proof. reflexivity. Qed.

Lemma analysis_failed_status (e : exn) :
  dict_get "status" (analysis_failed e) = Some (VStr "error")
  /\ (exists msg, dict_get "message" (analysis_failed e) = Some (VStr msg))
  /\ contingency_results (analysis_failed e) = None
  /\ dict_get "base_case_converged" (analysis_failed e) = None
  /\ dict_get "base_case_losses_mw" (analysis_failed e) = None.
Proof.
  unfold analysis_failed. destruct (is_RuntimeError e); repeat split; eauto.
Qed.

(** ** Resolving the target indices *)

Lemma accepted_kind_cases (ct : string) :
  accepted_kind ct = true <-> ct = "line" \/ ct = "trafo" \/ ct = "gen".
Proof.
  unfold accepted_kind. rewrite !orb_true_iff, !String.eqb_eq. tauto.
Qed.

Lemma resolve_indices_explicit (n : Net) (ct : string) (l : list Z) :
  resolve_indices n ct (Some l) = inr l.
Proof. reflexivity. Qed.

Lemma resolve_indices_accepted (n : Net) (ct : string)
    (element_indices : option (list Z)) :
  accepted_kind ct = true ->
  resolve_indices n ct element_indices = inr (target_indices n ct element_indices).
Proof.
  intros H. destruct element_indices as [l|]; [reflexivity|].
  apply accepted_kind_cases in H.
  destruct H as [-> | [-> | ->]]; reflexivity.
Qed.

Lemma resolve_indices_unknown (n : Net) (ct : string) :
  accepted_kind ct = false ->
  resolve_indices n ct None = inl (unknown_type ct).
Proof.
  unfold accepted_kind, resolve_indices. rewrite !orb_false_iff.
  intros [[-> ->] ->]. reflexivity.
Qed.

Lemma getitem_None_not_accepted (n : Net) (ct : string) :
  getitem n ct = None -> accepted_kind ct = false.
Proof.
  unfold getitem, accepted_kind.
  destruct (String.eqb ct "line"); [discriminate|].
  destruct (String.eqb ct "trafo"); [discriminate|].
  destruct (String.eqb ct "gen"); [discriminate|]. reflexivity.
Qed.

(** Without a list of indices a kind other than the three is rejected
    before anything is solved. *)
Lemma unknown_kind_rejected_without_list (runpp : Net -> SolveOutcome)
    (repr : string -> string) (w : World) (l : loc) (n : Net) (ct : string) :
  PANDAPOWER_AVAILABLE w = true ->
  _current_net w = Some l ->
  objs w !! l = Some n ->
  accepted_kind ct = false ->
  run_contingency_analysis runpp repr ct None w = (Ok (unknown_type ct), w).
Proof.
  intros Hav Hcur Hl Hacc.
  apply (run_contingency_analysis_rejected runpp repr w l n ct None _ Hav Hcur Hl).
  apply resolve_indices_unknown. exact Hacc.
Qed.

(** ** The properties of the specification *)

Section Departures.

Variable runpp : Net -> SolveOutcome.
Variable repr : string -> string.

(** C1 (the code departs from the specification).  When the final solve of
    the live network raises, the call does not return the report: the
    exception reaches the outer handler, and the value returned is the error
    dictionary, with status "error" and neither the base-case fields nor
    the contingency results that the loop produced. *)
Theorem final_solve_failure_discards_report (w : World) (l : loc) (n : Net)
    (ct : string) (element_indices : option (list Z)) (indices : list Z)
    (e : exn) (n2 : Net) :
  PANDAPOWER_AVAILABLE w = true ->
  _current_net w = Some l ->
  objs w !! l = Some n ->
  resolve_indices n ct element_indices = inr indices ->
  runpp (net_after (runpp n)) = Raises e n2 ->
  exists d,
    fst (run_contingency_analysis runpp repr ct element_indices w) = Ok d
    /\ d = analysis_failed e
    /\ dict_get "status" d = Some (VStr "error")
    /\ contingency_results d = None
    /\ dict_get "base_case_converged" d = None
    /\ dict_get "base_case_losses_mw" d = None.
Proof.
  intros Hav Hcur Hl Hres Hfin.
  rewrite (run_contingency_analysis_spec runpp repr w l n ct _ indices Hav Hcur Hl Hres).
  rewrite Hfin. simpl. exists (analysis_failed e).
  pose proof (analysis_failed_status e) as (Hs & _ & Hr & Hb & Hm).
  repeat split; assumption.
Qed.

(** C2 (the code departs from the specification).  When a list of indices
    is passed the kind is not checked: for a kind that names no element
    table the call returns a report with status "success", in which every
    entry is the failure record of the KeyError raised by the item access. *)
Theorem explicit_indices_skip_kind_check (w : World) (l : loc) (n : Net)
    (ct : string) (indices : list Z) (n2 : Net) :
  PANDAPOWER_AVAILABLE w = true ->
  _current_net w = Some l ->
  objs w !! l = Some n ->
  getitem (net_after (runpp n)) ct = None ->
  runpp (net_after (runpp n)) = Returns n2 ->
  accepted_kind ct = false
  /\ fst (run_contingency_analysis runpp repr ct (Some indices) w) =
     Ok (report ct indices (fst (base_fields (runpp n))) (snd (base_fields (runpp n)))
           (List.map (fun idx => failed_entry ct idx (KeyError repr ct)) indices)).
Proof.
  intros Hav Hcur Hl Hget Hfin. split.
  - exact (getitem_None_not_accepted _ _ Hget).
  - rewrite (run_contingency_analysis_spec runpp repr w l n ct _ indices Hav Hcur Hl
               (resolve_indices_explicit n ct indices)).
    rewrite Hfin. simpl. do 2 f_equal.
    apply map_ext. intros idx. unfold case_entry, outage. rewrite Hget. reflexivity.
Qed.

End Departures.

Section BaseCaseFailure.

Variable runpp : Net -> SolveOutcome.
Variable repr : string -> string.

(** The solver writes result fields only, and what it does is decided by the
    element tables of the network it is given. *)
Hypothesis solver_frame : forall m, topology (net_after (runpp m)) = topology m.
Hypothesis solver_reads_topology :
  forall m m', topology m = topology m' -> runpp m = runpp m'.

(** C6 (the code departs from the specification).  When the base-case solve
    raises, the sweep runs all the same, one case network per index, but no
    report records the failure: the final solve of the live network, whose
    element tables are those the base case was solved on, raises the same
    exception outside every inner handler, and the call returns the error
    dictionary with the message of that exception, without
    [base_case_converged], without [base_case_losses_mw] and without the
    results of the sweep. *)
Theorem base_case_failure_returns_no_report (w : World) (l : loc) (n : Net)
    (ct : string) (element_indices : option (list Z)) (indices : list Z)
    (e : exn) (n1 : Net) :
  PANDAPOWER_AVAILABLE w = true ->
  _current_net w = Some l ->
  objs w !! l = Some n ->
  resolve_indices n ct element_indices = inr indices ->
  runpp n = Raises e n1 ->
  let out := run_contingency_analysis runpp repr ct element_indices w in
  fst (base_case runpp l w) = Ok (false, 0%float)
  /\ length (objs (snd out)) = (length (objs w) + 1 + length indices)%nat
  /\ objs (snd out) !! length (objs w) = Some n1
  /\ (forall k idx c0,
        indices !! k = Some idx ->
        int64_label idx ->
        outage n1 ct idx = Some c0 ->
        objs (snd out) !! (length (objs w) + 1 + k)%nat = Some (net_after (runpp c0)))
  /\ runpp n1 = Raises e n1
  /\ fst out
     = Ok [ ("status", VStr "error");
            ("message", VStr (if is_RuntimeError e then str e
                              else "Contingency analysis failed: " +:+ str e)) ]
  /\ (forall d, fst out = Ok d ->
        dict_get "status" d = Some (VStr "error")
        /\ dict_get "base_case_converged" d = None
        /\ dict_get "base_case_losses_mw" d = None
        /\ contingency_results d = None).
Proof.
  intros Hav Hcur Hl Hres Hbase out. subst out.
  assert (Hn1 : net_after (runpp n) = n1) by (rewrite Hbase; reflexivity).
  assert (Hagain : runpp n1 = Raises e n1).
  { rewrite <- Hbase, <- Hn1 at 1.
    rewrite (solver_reads_topology _ n (solver_frame n)), Hbase. reflexivity. }
  rewrite (run_contingency_analysis_spec runpp repr w l n ct _ indices Hav Hcur Hl Hres).
  rewrite Hn1, Hagain. simpl.
  split; [rewrite (base_case_spec runpp w l n Hl), Hbase; reflexivity|].
  split; [rewrite length_app, length_insert; simpl; rewrite length_map; lia|].
  split.
  { rewrite lookup_app_r by (rewrite length_insert; lia).
    rewrite length_insert, Nat.sub_diag. reflexivity. }
  split.
  { intros k idx c0 Hk _ Hc0.
    rewrite lookup_app_r by (rewrite length_insert; lia).
    rewrite length_insert.
    replace (length (objs w) + 1 + k - length (objs w))%nat with (S k) by lia.
    simpl. rewrite lookup_map, Hk. simpl. unfold case_final. rewrite Hc0.
    reflexivity. }
  split; [reflexivity|].
  split; [unfold analysis_failed; destruct (is_RuntimeError e); reflexivity|].
  intros d [= <-].
  pose proof (analysis_failed_status e) as (Hs & _ & Hr & Hb & Hm).
  repeat split; assumption.
Qed.

End BaseCaseFailure.



(** ** The functions on the fixtures *)

Example at_in_service_False_present :
  at_in_service_False 1 [(0, on); (1, on)] = [(0, on); (1, off)].
Proof. reflexivity. Qed.

Example at_in_service_False_absent :
  at_in_service_False 9 [(0, on); (1, on)] = [(0, on); (1, on); (9, off)].
Proof. reflexivity. Qed.

Example contingency_name_line_12 : contingency_name "line" 12 = "line_12".
Proof. reflexivity. Qed.

Example example_line_report :
  fst (run_contingency_analysis toy_runpp quoted "line" None (world_of example_net))
  = Ok [ ("status", VStr "success");
         ("message", VStr "Contingency analysis completed for 2 line(s)");
         ("base_case_converged", VBool true);
         ("base_case_losses_mw", VFloat 0.1%float);
         ("contingency_results",
          VList
            [ VDict [ ("contingency", VStr "line_0");
                      ("converged", VBool true);
                      ("voltage_violations", VList [VInt 0; VInt 1; VInt 2]);
                      ("loading_violations", VList [VInt 1]);
                      ("max_loading_percent", VFloat 120%float);
                      ("min_voltage_pu", VFloat 0.93%float);
                      ("max_voltage_pu", VFloat 0.93%float) ];
              VDict [ ("contingency", VStr "line_1");
                      ("converged", VBool true);
                      ("voltage_violations", VList [VInt 0; VInt 1; VInt 2]);
                      ("loading_violations", VList [VInt 0]);
                      ("max_loading_percent", VFloat 120%float);
                      ("min_voltage_pu", VFloat 0.93%float);
                      ("max_voltage_pu", VFloat 0.93%float) ] ]) ].
Proof. vm_compute. reflexivity. Qed.

Example example_breaker_report :
  fst (run_contingency_analysis toy_runpp quoted "breaker" (Some [0])
         (world_of example_net))
  = Ok [ ("status", VStr "success");
         ("message", VStr "Contingency analysis completed for 1 breaker(s)");
         ("base_case_converged", VBool true);
         ("base_case_losses_mw", VFloat 0.1%float);
         ("contingency_results",
          VList [ VDict [ ("contingency", VStr "breaker_0");
                          ("converged", VBool false);
                          ("error", VStr "'breaker'") ] ]) ].
Proof. vm_compute. reflexivity. Qed.

Example example_breaker_rejected :
  fst (run_contingency_analysis toy_runpp quoted "breaker" None (world_of example_net))
  = Ok [ ("status", VStr "error");
         ("message", VStr "Unknown contingency type: breaker") ].
Proof. vm_compute. reflexivity. Qed.

Example example_dead_network :
  fst (run_contingency_analysis toy_runpp quoted "line" None (world_of dead_net))
  = Ok [ ("status", VStr "error");
         ("message",
          VStr "Contingency analysis failed: Power Flow nr did not converge after 10 iterations!") ].
Proof. vm_compute. reflexivity. Qed.

Example example_empty_list :
  fst (run_contingency_analysis toy_runpp quoted "line" (Some []) (world_of example_net))
  = Ok [ ("status", VStr "success");
         ("message", VStr "Contingency analysis completed for 0 line(s)");
         ("base_case_converged", VBool true);
         ("base_case_losses_mw", VFloat 0.1%float);
         ("contingency_results", VList []) ].
Proof. vm_compute. reflexivity. Qed.

(** ** Violations of a solved case *)

Lemma voltage_violations_iff (c : Net) (b : Z) :
  In b (voltage_violations c) <->
  exists row, In (b, row) (res_bus c)
              /\ (PrimFloat.ltb (ResBus.vm_pu row) 0.95%float = true
                  \/ PrimFloat.ltb 1.05%float (ResBus.vm_pu row) = true).
Proof.
  unfold voltage_violations, vm_pu_violation. rewrite in_map_iff. split.
  - intros ([b' row] & Hb & Hin). simpl in Hb. subst b'.
    apply filter_In in Hin. destruct Hin as [Hin Hv]. simpl in Hv.
    apply orb_true_iff in Hv. eauto.
  - intros (row & Hin & Hv). exists (b, row). split; [reflexivity|].
    apply filter_In. split; [exact Hin|]. simpl. apply orb_true_iff. exact Hv.
Qed.

Lemma loading_violations_iff (c : Net) (z : Z) :
  In z (loading_violations c) <->
  exists row, In (z, row) (res_line c)
              /\ PrimFloat.ltb 100%float (ResLine.loading_percent row) = true.
Proof.
  unfold loading_violations, loading_violation. rewrite in_map_iff. split.
  - intros ([z' row] & Hz & Hin). simpl in Hz. subst z'.
    apply filter_In in Hin. destruct Hin as [Hin Hv]. eauto.
  - intros (row & Hin & Hv). exists (z, row). split; [reflexivity|].
    apply filter_In. split; assumption.
Qed.

Section SolvedCases.

Variable runpp : Net -> SolveOutcome.
Variable repr : string -> string.

(** The entry of a case whose solve returned. *)
Lemma case_entry_solved (orig c0 c : Net) (ct : string) (idx : Z) :
  outage orig ct idx = Some c0 ->
  runpp c0 = Returns c ->
  case_entry runpp repr orig ct idx = solved_entry ct idx c.
Proof. intros H0 H1. unfold case_entry. rewrite H0, H1. reflexivity. Qed.

(** The entry at position [k] of a returned report. *)
Lemma report_entry (w : World) (l : loc) (n : Net) (ct : string)
    (element_indices : option (list Z)) (indices : list Z) (n2 : Net)
    (k : nat) (idx : Z) :
  PANDAPOWER_AVAILABLE w = true ->
  _current_net w = Some l ->
  objs w !! l = Some n ->
  resolve_indices n ct element_indices = inr indices ->
  runpp (net_after (runpp n)) = Returns n2 ->
  indices !! k = Some idx ->
  exists d results,
    fst (run_contingency_analysis runpp repr ct element_indices w) = Ok d
    /\ dict_get "status" d = Some (VStr "success")
    /\ contingency_results d = Some results
    /\ length results = length indices
    /\ results !! k = Some (VDict (case_entry runpp repr (net_after (runpp n)) ct idx)).
Proof.
  intros Hav Hcur Hl Hres Hfin Hk.
  rewrite (run_contingency_analysis_spec runpp repr w l n ct _ indices Hav Hcur Hl Hres).
  rewrite Hfin. simpl. eexists. eexists.
  split; [reflexivity|]. split; [reflexivity|]. split; [reflexivity|].
  split.
  - rewrite !length_map. reflexivity.
  - rewrite !lookup_map, Hk. reflexivity.
Qed.

(** An entry with the flag [converged] set is the record of a solve that
    returned. *)
Lemma case_entry_converged (orig : Net) (ct : string) (idx : Z) :
  dict_get "converged" (case_entry runpp repr orig ct idx) = Some (VBool true) ->
  exists c0 c,
    outage orig ct idx = Some c0
    /\ runpp c0 = Returns c
    /\ case_entry runpp repr orig ct idx = solved_entry ct idx c.
Proof.
  unfold case_entry. destruct (outage orig ct idx) as [c0|]; [|discriminate].
  destruct (runpp c0) as [c|e c] eqn:Hc; [|discriminate].
  intros _. exists c0, c. repeat split; assumption.
Qed.

(** C3 (as amended).  For every converged contingency case, the recorded
    loading violations are the indices of the lines whose solved loading
    percent exceeds 100, and of nothing else: the transformer results are
    not read, so the record is the same whatever the loading of the
    transformers. *)
Theorem loading_violations_record_lines_only (w : World) (l : loc) (n : Net)
    (ct : string) (element_indices : option (list Z)) (indices : list Z)
    (n2 : Net) (k : nat) (idx : Z) :
  PANDAPOWER_AVAILABLE w = true ->
  _current_net w = Some l ->
  objs w !! l = Some n ->
  resolve_indices n ct element_indices = inr indices ->
  runpp (net_after (runpp n)) = Returns n2 ->
  indices !! k = Some idx ->
  exists d results entry,
    fst (run_contingency_analysis runpp repr ct element_indices w) = Ok d
    /\ contingency_results d = Some results
    /\ results !! k = Some (VDict entry)
    /\ (dict_get "converged" entry = Some (VBool true) ->
        exists c0 c lv,
          outage (net_after (runpp n)) ct idx = Some c0
          /\ runpp c0 = Returns c
          /\ dict_get "loading_violations" entry = Some (VList (List.map VInt lv))
          /\ (forall z, In z lv <->
                exists row, In (z, row) (res_line c)
                            /\ PrimFloat.ltb 100%float (ResLine.loading_percent row) = true)
          /\ (forall c', res_line c' = res_line c ->
                dict_get "loading_violations" (solved_entry ct idx c')
                = Some (VList (List.map VInt lv)))).
Proof.
  intros Hav Hcur Hl Hres Hfin Hk.
  destruct (report_entry w l n ct element_indices indices n2 k idx
              Hav Hcur Hl Hres Hfin Hk) as (d & results & Hd & _ & Hr & _ & He).
  exists d, results, (case_entry runpp repr (net_after (runpp n)) ct idx).
  split; [exact Hd|]. split; [exact Hr|]. split; [exact He|].
  intros Hconv.
  destruct (case_entry_converged _ ct idx Hconv) as (c0 & c & H0 & H1 & Hentry).
  exists c0, c, (loading_violations c).
  split; [exact H0|]. split; [exact H1|]. rewrite Hentry.
  split; [reflexivity|]. split.
  - intros z. apply loading_violations_iff.
  - intros c' Heq. simpl. unfold loading_violations. rewrite Heq. reflexivity.
Qed.

(** C4.  For every case whose solve returned, a bus index is in the
    recorded voltage violations exactly when a row of [res_bus] with that
    index has a voltage below 0.95 or above 1.05, and a line index is in the
    recorded loading violations exactly when a row of [res_line] with that
    index has a loading above 100; the comparisons are the strict ones of
    the floating-point values themselves: 0.95, 1.05 and 100 are not
    violations, and the nearest values outside the bounds are. *)
Theorem violation_thresholds_strict (w : World) (l : loc) (n : Net)
    (ct : string) (element_indices : option (list Z)) (indices : list Z)
    (n2 : Net) (k : nat) (idx : Z) (c0 c : Net) :
  PANDAPOWER_AVAILABLE w = true ->
  _current_net w = Some l ->
  objs w !! l = Some n ->
  resolve_indices n ct element_indices = inr indices ->
  runpp (net_after (runpp n)) = Returns n2 ->
  indices !! k = Some idx ->
  outage (net_after (runpp n)) ct idx = Some c0 ->
  runpp c0 = Returns c ->
  exists d results entry vv lv,
    fst (run_contingency_analysis runpp repr ct element_indices w) = Ok d
    /\ contingency_results d = Some results
    /\ results !! k = Some (VDict entry)
    /\ dict_get "voltage_violations" entry = Some (VList (List.map VInt vv))
    /\ dict_get "loading_violations" entry = Some (VList (List.map VInt lv))
    /\ (forall b, In b vv <->
          exists row, In (b, row) (res_bus c)
                      /\ (PrimFloat.ltb (ResBus.vm_pu row) 0.95%float = true
                          \/ PrimFloat.ltb 1.05%float (ResBus.vm_pu row) = true))
    /\ (forall z, In z lv <->
          exists row, In (z, row) (res_line c)
                      /\ PrimFloat.ltb 100%float (ResLine.loading_percent row) = true)
    /\ vm_pu_violation 0.95%float = false
    /\ vm_pu_violation 1.05%float = false
    /\ loading_violation 100%float = false
    /\ vm_pu_violation (PrimFloat.next_down 0.95%float) = true
    /\ vm_pu_violation (PrimFloat.next_up 1.05%float) = true
    /\ loading_violation (PrimFloat.next_up 100%float) = true.
Proof.
  intros Hav Hcur Hl Hres Hfin Hk H0 H1.
  destruct (report_entry w l n ct element_indices indices n2 k idx
              Hav Hcur Hl Hres Hfin Hk) as (d & results & Hd & _ & Hr & _ & He).
  rewrite (case_entry_solved _ c0 c ct idx H0 H1) in He.
  exists d, results, (solved_entry ct idx c),
    (voltage_violations c), (loading_violations c).
  split; [exact Hd|]. split; [exact Hr|]. split; [exact He|].
  split; [reflexivity|]. split; [reflexivity|].
  split; [intros b; apply voltage_violations_iff|].
  split; [intros z; apply loading_violations_iff|].
  repeat split; reflexivity.
Qed.

End SolvedCases.

Section Reports.

Variable runpp : Net -> SolveOutcome.
Variable repr : string -> string.

Lemma case_entry_name (orig : Net) (ct : string) (idx : Z) :
  dict_get "contingency" (case_entry runpp repr orig ct idx)
  = Some (VStr (ct +:+ "_" +:+ pretty idx)).
Proof.
  unfold case_entry. destruct (outage orig ct idx) as [c|]; [|reflexivity].
  destruct (runpp c); reflexivity.
Qed.

(** An entry is a failure record or the record of a returned solve. *)
Lemma case_entry_cases (orig : Net) (ct : string) (idx : Z) :
  (exists e, case_entry runpp repr orig ct idx = failed_entry ct idx e)
  \/ (exists c0 c, runpp c0 = Returns c
                   /\ case_entry runpp repr orig ct idx = solved_entry ct idx c).
Proof.
  unfold case_entry. destruct (outage orig ct idx) as [c0|]; [|eauto].
  destruct (runpp c0) as [c|e c] eqn:Hc; eauto.
Qed.

(** C5.  For an accepted kind and the target indices of the call, the
    report that is returned once the final solve of the live network has
    returned holds one entry per target index, in the order of the targets,
    each named by the kind, an underscore and the index; with the empty list
    there is no entry, and the base-case fields are those of the first solve
    all the same. *)
Theorem one_entry_per_target_index (w : World) (l : loc) (n : Net)
    (ct : string) (element_indices : option (list Z)) (n2 : Net) :
  PANDAPOWER_AVAILABLE w = true ->
  _current_net w = Some l ->
  objs w !! l = Some n ->
  accepted_kind ct = true ->
  runpp (net_after (runpp n)) = Returns n2 ->
  exists d results,
    fst (run_contingency_analysis runpp repr ct element_indices w) = Ok d
    /\ dict_get "status" d = Some (VStr "success")
    /\ contingency_results d = Some results
    /\ length results = length (target_indices n ct element_indices)
    /\ (forall k idx,
          target_indices n ct element_indices !! k = Some idx ->
          exists entry,
            results !! k = Some (VDict entry)
            /\ dict_get "contingency" entry = Some (VStr (ct +:+ "_" +:+ pretty idx)))
    /\ (element_indices = Some [] -> results = [])
    /\ dict_get "base_case_converged" d = Some (VBool (fst (base_fields (runpp n))))
    /\ dict_get "base_case_losses_mw" d = Some (VFloat (snd (base_fields (runpp n)))).
Proof.
  intros Hav Hcur Hl Hacc Hfin.
  pose proof (resolve_indices_accepted n ct element_indices Hacc) as Hres.
  rewrite (run_contingency_analysis_spec runpp repr w l n ct _ _ Hav Hcur Hl Hres).
  rewrite Hfin. simpl. eexists. eexists.
  split; [reflexivity|]. split; [reflexivity|]. split; [reflexivity|].
  split; [rewrite !length_map; reflexivity|].
  split; [|split; [|split; reflexivity]].
  - intros k idx Hk. eexists. split.
    + rewrite !lookup_map, Hk. reflexivity.
    + apply case_entry_name.
  - intros ->. reflexivity.
Qed.

(** C7.  With a solver that raises whenever it does not converge, the
    report holds one entry per target index, whatever happened to the cases
    before it; an entry whose [converged] flag is false is the record of the
    [except] clause, made of the name of the case, the flag and an error
    message, with none of the violation lists and extrema; and for an index
    among the 64-bit labels and a kind that names an element table, the
    case network was copied and handed to the solver, and the entry is the
    record of what the solver did: the message of the exception it raised,
    or the solved case with its flag set. *)
Theorem failed_entries_carry_only_the_error (w : World) (l : loc) (n : Net)
    (ct : string) (element_indices : option (list Z)) (indices : list Z)
    (n2 : Net) :
  (forall m m', runpp m = Returns m' -> converged m' = true) ->
  PANDAPOWER_AVAILABLE w = true ->
  _current_net w = Some l ->
  objs w !! l = Some n ->
  resolve_indices n ct element_indices = inr indices ->
  runpp (net_after (runpp n)) = Returns n2 ->
  let out := run_contingency_analysis runpp repr ct element_indices w in
  exists d results,
    fst out = Ok d
    /\ contingency_results d = Some results
    /\ length results = length indices
    /\ (forall k v, results !! k = Some v ->
          exists entry idx,
            v = VDict entry
            /\ indices !! k = Some idx
            /\ dict_get "contingency" entry = Some (VStr (ct +:+ "_" +:+ pretty idx))
            /\ (dict_get "converged" entry = Some (VBool false) ->
                  (exists msg,
                      entry = [ ("contingency", VStr (ct +:+ "_" +:+ pretty idx));
                                ("converged", VBool false);
                                ("error", VStr msg) ])
                  /\ has_key "voltage_violations" entry = false
                  /\ has_key "loading_violations" entry = false
                  /\ has_key "max_loading_percent" entry = false
                  /\ has_key "min_voltage_pu" entry = false
                  /\ has_key "max_voltage_pu" entry = false))
    /\ (forall k idx c0,
          indices !! k = Some idx ->
          int64_label idx ->
          outage (net_after (runpp n)) ct idx = Some c0 ->
          objs (snd out) !! (length (objs w) + 1 + k)%nat = Some (net_after (runpp c0))
          /\ match runpp c0 with
             | Raises e _ =>
                 results !! k
                 = Some (VDict [ ("contingency", VStr (ct +:+ "_" +:+ pretty idx));
                                 ("converged", VBool false);
                                 ("error", VStr (str e)) ])
             | Returns c =>
                 results !! k = Some (VDict (solved_entry ct idx c))
                 /\ dict_get "converged" (solved_entry ct idx c) = Some (VBool true)
             end).
Proof.
  intros Hsolver Hav Hcur Hl Hres Hfin out. subst out.
  rewrite (run_contingency_analysis_spec runpp repr w l n ct _ indices Hav Hcur Hl Hres).
  rewrite Hfin. simpl. eexists. eexists.
  split; [reflexivity|]. split; [reflexivity|].
  split; [rewrite !length_map; reflexivity|]. split.
  - intros k v Hk. rewrite !lookup_map in Hk.
    destruct (indices !! k) as [idx|] eqn:Hidx; [|discriminate].
    simpl in Hk. injection Hk as <-.
    eexists. exists idx. split; [reflexivity|]. split; [reflexivity|].
    split; [apply case_entry_name|].
    destruct (case_entry_cases (net_after (runpp n)) ct idx)
      as [[e ->] | (c0 & c & Hc & ->)].
    + intros _. repeat split. exists (str e). reflexivity.
    + simpl. rewrite (Hsolver c0 c Hc). discriminate.
  - intros k idx c0 Hk _ Hc0. split.
    + rewrite lookup_app_r by (rewrite length_insert; lia).
      rewrite length_insert.
      replace (length (objs w) + 1 + k - length (objs w))%nat with (S k) by lia.
      simpl. rewrite lookup_map, Hk. simpl. unfold case_final. rewrite Hc0.
      reflexivity.
    + rewrite !lookup_map, Hk. simpl. unfold case_entry. rewrite Hc0.
      destruct (runpp c0) as [c|e c] eqn:Hc; [|reflexivity].
      split; [reflexivity|]. simpl. rewrite (Hsolver c0 c Hc). reflexivity.
Qed.

End Reports.

(** ** The outage of one element *)

Lemma has_label_false (idx : Z) (t : Table) (j : nat) (r : Z * Row) :
  has_label idx t = false -> t !! j = Some r -> fst r <> idx.
Proof.
  unfold has_label. revert j.
  induction t as [|r0 t IH]; intros j Hex Hj; [discriminate|].
  simpl in Hex. apply orb_false_iff in Hex. destruct Hex as [Hr0 Ht].
  destruct j as [|j]; simpl in Hj.
  - injection Hj as <-. apply Z.eqb_neq. exact Hr0.
  - exact (IH j Ht Hj).
Qed.

(** The rows of the other labels are kept, at their positions. *)
Lemma at_in_service_False_other (idx : Z) (t : Table) (j : nat) (r : Z * Row) :
  t !! j = Some r -> fst r <> idx -> at_in_service_False idx t !! j = Some r.
Proof.
  intros Hj Hne. unfold at_in_service_False.
  destruct (has_label idx t).
  - rewrite lookup_map, Hj. simpl.
    apply Z.eqb_neq in Hne. rewrite Hne. reflexivity.
  - apply lookup_app_l_Some. exact Hj.
Qed.

(** Every row of the label is out of service afterwards. *)
Lemma at_in_service_False_flag (idx : Z) (t : Table) (j : nat) (r : Z * Row) :
  at_in_service_False idx t !! j = Some r -> fst r = idx ->
  in_service (snd r) = false.
Proof.
  unfold at_in_service_False. intros Hj Hidx.
  destruct (has_label idx t) eqn:Hlab.
  - rewrite lookup_map in Hj.
    destruct (t !! j) as [r0|]; [|discriminate]. simpl in Hj.
    destruct (Z.eqb (fst r0) idx) eqn:Heq.
    + injection Hj as <-. reflexivity.
    + injection Hj as <-. apply Z.eqb_neq in Heq. contradiction.
  - apply lookup_app_Some in Hj. destruct Hj as [Hj | [_ Hj]].
    + exfalso. exact (has_label_false idx t j r Hlab Hj Hidx).
    + destruct (j - length t)%nat; simpl in Hj; [|discriminate].
      injection Hj as <-. reflexivity.
Qed.

Lemma getitem_with_table (n : Net) (key : string) (t : Table) :
  getitem (with_table n key t) key = Some t.
Proof.
  unfold getitem, with_table.
  destruct (String.eqb key "line") eqn:H1; [simpl; reflexivity|].
  destruct (String.eqb key "trafo") eqn:H2; [simpl; reflexivity|].
  destruct (String.eqb key "gen") eqn:H3; [simpl; reflexivity|].
  simpl. apply lookup_insert_eq.
Qed.

Lemma getitem_with_table_ne (n : Net) (key key' : string) (t : Table) :
  key' <> key -> getitem (with_table n key t) key' = getitem n key'.
Proof.
  intros Hne. unfold getitem, with_table.
  destruct (String.eqb_spec key "line") as [E1|E1];
    [|destruct (String.eqb_spec key "trafo") as [E2|E2];
      [|destruct (String.eqb_spec key "gen") as [E3|E3]]]; simpl;
  (destruct (String.eqb_spec key' "line") as [F1|F1];
    [|destruct (String.eqb_spec key' "trafo") as [F2|F2];
      [|destruct (String.eqb_spec key' "gen") as [F3|F3]]]);
  try reflexivity; try congruence.
  apply lookup_insert_ne. congruence.
Qed.

Lemma with_table_results (n : Net) (key : string) (t : Table) :
  res_bus (with_table n key t) = res_bus n
  /\ res_line (with_table n key t) = res_line n
  /\ res_trafo (with_table n key t) = res_trafo n
  /\ converged (with_table n key t) = converged n.
Proof.
  unfold with_table.
  destruct (String.eqb key "line"); [repeat split|].
  destruct (String.eqb key "trafo"); [repeat split|].
  destruct (String.eqb key "gen"); repeat split.
Qed.

Section Isolation.

Variable runpp : Net -> SolveOutcome.
Variable repr : string -> string.

(** The case network differs from the pristine one in the flag of the
    rows labelled [idx] of the table of the kind, and in nothing else. *)
Lemma outage_changes_one_flag (orig c0 : Net) (ct : string) (idx : Z) :
  outage orig ct idx = Some c0 ->
  (forall key t j r,
      getitem orig key = Some t -> t !! j = Some r ->
      key <> ct \/ fst r <> idx ->
      exists t', getitem c0 key = Some t' /\ t' !! j = Some r)
  /\ (forall t' j r,
        getitem c0 ct = Some t' -> t' !! j = Some r -> fst r = idx ->
        in_service (snd r) = false)
  /\ res_bus c0 = res_bus orig
  /\ res_line c0 = res_line orig
  /\ res_trafo c0 = res_trafo orig
  /\ converged c0 = converged orig.
Proof.
  unfold outage. destruct (getitem orig ct) as [t0|] eqn:Ht0; [|discriminate].
  intros [= <-]. split; [|split].
  - intros key t j r Hkey Hj Hor.
    destruct (String.eqb_spec key ct) as [->|Hne].
    + rewrite Ht0 in Hkey. injection Hkey as <-.
      exists (at_in_service_False idx t0). split; [apply getitem_with_table|].
      destruct Hor as [Hc|Hr]; [contradiction|].
      exact (at_in_service_False_other idx t0 j r Hj Hr).
    + exists t. split; [|exact Hj].
      rewrite getitem_with_table_ne by exact Hne. exact Hkey.
  - intros t' j r Hget Hj Hidx. rewrite getitem_with_table in Hget.
    injection Hget as <-. exact (at_in_service_False_flag idx t0 j r Hj Hidx).
  - apply with_table_results.
Qed.

(** C8.  The loop creates one new object per index, in the order of the
    indices, and changes no object that existed before it, the pristine
    copy and the live network among them.  For an index among the 64-bit
    labels and a kind that names an element table, the object of the
    iteration is the solver's output on the pristine network with the flag
    of that index cleared and nothing else changed, whatever indices came
    before: the flags cleared by the earlier iterations are set again in
    it; and the entry recorded is the record of that solve. *)
Theorem each_case_copies_the_pristine_network (w : World) (orig_net : loc)
    (orig : Net) (ct : string) (indices : list Z) (results : list Dict) :
  objs w !! orig_net = Some orig ->
  let out := contingency_loop runpp repr orig_net ct indices results w in
  length (objs (snd out)) = (length (objs w) + length indices)%nat
  /\ (forall l m, objs w !! l = Some m -> objs (snd out) !! l = Some m)
  /\ _current_net (snd out) = _current_net w
  /\ (exists entries,
        fst out = Ok (results ++ entries) /\ length entries = length indices)
  /\ (forall k idx c0,
        indices !! k = Some idx ->
        int64_label idx ->
        outage orig ct idx = Some c0 ->
        objs (snd out) !! (length (objs w) + k)%nat = Some (net_after (runpp c0))
        /\ (exists entries,
              fst out = Ok (results ++ entries)
              /\ entries !! k
                 = Some (match runpp c0 with
                         | Returns c => solved_entry ct idx c
                         | Raises e _ =>
                             [ ("contingency", VStr (ct +:+ "_" +:+ pretty idx));
                               ("converged", VBool false);
                               ("error", VStr (str e)) ]
                         end))
        /\ (forall key t j r,
              getitem orig key = Some t -> t !! j = Some r ->
              key <> ct \/ fst r <> idx ->
              exists t', getitem c0 key = Some t' /\ t' !! j = Some r)
        /\ (forall t' j r,
              getitem c0 ct = Some t' -> t' !! j = Some r -> fst r = idx ->
              in_service (snd r) = false)
        /\ res_bus c0 = res_bus orig
        /\ res_line c0 = res_line orig
        /\ res_trafo c0 = res_trafo orig
        /\ converged c0 = converged orig).
Proof.
  intros Horig out. subst out.
  rewrite (contingency_loop_spec runpp repr orig_net orig ct indices results w Horig).
  simpl.
  split; [rewrite length_app, length_map; reflexivity|].
  split; [intros l m Hl; apply lookup_app_l_Some; exact Hl|].
  split; [reflexivity|].
  split; [eexists; split; [reflexivity | apply length_map]|].
  intros k idx c0 Hk _ Hc0.
  split.
  { rewrite lookup_app_r by lia.
    replace (length (objs w) + k - length (objs w))%nat with k by lia.
    rewrite lookup_map, Hk. simpl. unfold case_final. rewrite Hc0. reflexivity. }
  split.
  { eexists. split; [reflexivity|].
    rewrite lookup_map, Hk. simpl. unfold case_entry. rewrite Hc0.
    destruct (runpp c0); reflexivity. }
  exact (outage_changes_one_flag orig c0 ct idx Hc0).
Qed.

(** C9.  With a solver that writes result fields only, the live network
    has after the call the topology it had before: every element table is
    the same, hence the same elements with the same [in_service] flags; and
    it is still the active network. *)
Theorem active_network_topology_preserved (w : World) (l : loc) (n : Net)
    (ct : string) (element_indices : option (list Z)) :
  (forall m, topology (net_after (runpp m)) = topology m) ->
  _current_net w = Some l ->
  objs w !! l = Some n ->
  let w' := snd (run_contingency_analysis runpp repr ct element_indices w) in
  _current_net w' = Some l
  /\ exists n', objs w' !! l = Some n'
                /\ topology n' = topology n
                /\ forall key, getitem n' key = getitem n key.
Proof.
  intros Hframe Hcur Hl w'. subst w'.
  assert (Hsame : forall n', topology n' = topology n ->
                             forall key, getitem n' key = getitem n key).
  { intros n' [= H1 H2 H3 H4] key. unfold getitem. rewrite H1, H2, H3, H4.
    reflexivity. }
  destruct (PANDAPOWER_AVAILABLE w) eqn:Hav.
  - destruct (resolve_indices n ct element_indices) as [d|indices] eqn:Hres.
    + rewrite (run_contingency_analysis_rejected runpp repr w l n ct _ d
                 Hav Hcur Hl Hres). simpl. eauto 6.
    + rewrite (run_contingency_analysis_spec runpp repr w l n ct _ indices
                 Hav Hcur Hl Hres). simpl.
      split; [exact Hcur|].
      assert (Htop : topology (net_after (runpp (net_after (runpp n)))) = topology n)
        by (rewrite !Hframe; reflexivity).
      exists (net_after (runpp (net_after (runpp n)))). split; [|split].
      * apply lookup_app_l_Some, list_lookup_insert_eq.
        exact (lookup_lt_Some _ _ _ Hl).
      * exact Htop.
      * exact (Hsame _ Htop).
  - unfold run_contingency_analysis. rewrite Hav. simpl. eauto 6.
Qed.

End Isolation.

Section Totality.

Variable runpp : Net -> SolveOutcome.
Variable repr : string -> string.

Lemma resolve_indices_inl (n : Net) (ct : string)
    (element_indices : option (list Z)) (d : Dict) :
  resolve_indices n ct element_indices = inl d -> d = unknown_type ct.
Proof.
  unfold resolve_indices. destruct element_indices; [discriminate|].
  destruct (String.eqb ct "line"); [discriminate|].
  destruct (String.eqb ct "trafo"); [discriminate|].
  destruct (String.eqb ct "gen"); [discriminate|].
  intros [= <-]. reflexivity.
Qed.

Lemma analysis_rejected (w : World) (l : loc) (n : Net) (ct : string)
    (element_indices : option (list Z)) (d : Dict) :
  _current_net w = Some l ->
  objs w !! l = Some n ->
  resolve_indices n ct element_indices = inl d ->
  analysis runpp repr ct element_indices w = (Ok d, w).
Proof.
  intros Hcur Hl Hres. unfold analysis.
  assert (Hget : _get_network w = (Ok l, w)) by (unfold _get_network; rewrite Hcur; reflexivity).
  rewrite (bind_Ok _ _ _ _ _ Hget).
  rewrite (bind_Ok _ _ _ _ _ (load_Some w l n Hl)).
  rewrite Hres. reflexivity.
Qed.

(** Whatever the statements of the outer [try] return has a status. *)
Lemma analysis_value (ct : string) (element_indices : option (list Z))
    (w : World) (d : Dict) :
  fst (analysis runpp repr ct element_indices w) = Ok d ->
  has_status d.
Proof.
  unfold analysis. rewrite bind_unfold.
  destruct (_get_network w) as [[l|e] w1]; [|discriminate].
  rewrite bind_unfold.
  destruct (load l w1) as [[n|e] w2]; [|discriminate].
  destruct (resolve_indices n ct element_indices) as [d0|indices] eqn:Hres.
  - apply resolve_indices_inl in Hres. subst d0. simpl. intros [= <-].
    right. split; [reflexivity|]. eexists. reflexivity.
  - rewrite bind_unfold.
    destruct (base_case runpp l w2) as [[b|e] w3]; [|discriminate].
    rewrite bind_unfold.
    destruct (deepcopy l w3) as [[o|e] w4]; [|discriminate].
    rewrite bind_unfold.
    destruct (contingency_loop runpp repr o ct indices [] w4) as [[rs|e] w5];
      [|discriminate].
    rewrite bind_unfold.
    destruct (pp_runpp runpp l w5) as [[u|e] w6]; [|discriminate].
    simpl. intros [= <-]. left. reflexivity.
Qed.

(** C10.  In every world and for every argument the call returns a
    dictionary and raises nothing.  The dictionary is the one the
    statements of the outer [try] return, with the status "success" or the
    status "error" of an unknown kind; or, when they raise, the error
    dictionary carrying the message of the exception raised: as it is for
    a RuntimeError, after the words "Contingency analysis failed: "
    otherwise.  So it is for the RuntimeError of the accessor without an
    active network and for the exception of the final solve; without
    pandapower the message says so. *)
Theorem run_contingency_analysis_always_returns_status (ct : string)
    (element_indices : option (list Z)) (w : World) :
  exists d,
    fst (run_contingency_analysis runpp repr ct element_indices w) = Ok d
    /\ has_status d
    /\ (PANDAPOWER_AVAILABLE w = false ->
        d = [ ("status", VStr "error");
              ("message", VStr "pandapower is not installed") ])
    /\ (PANDAPOWER_AVAILABLE w = true ->
        (forall d', fst (analysis runpp repr ct element_indices w) = Ok d' -> d = d')
        /\ (forall e, fst (analysis runpp repr ct element_indices w) = Raise e ->
              d = [ ("status", VStr "error");
                    ("message", VStr (if is_RuntimeError e then str e
                                      else "Contingency analysis failed: " +:+ str e)) ])
        /\ (_current_net w = None ->
              fst (_get_network w)
              = Raise (mkExn true "No pandapower network is currently loaded. Please create or load a network first.")
              /\ d = [ ("status", VStr "error");
                       ("message", VStr "No pandapower network is currently loaded. Please create or load a network first.") ])
        /\ (forall l n, _current_net w = Some l -> objs w !! l = Some n ->
              (element_indices = None -> accepted_kind ct = false ->
                 d = [ ("status", VStr "error");
                       ("message", VStr ("Unknown contingency type: " +:+ ct)) ])
              /\ (forall indices e n',
                    resolve_indices n ct element_indices = inr indices ->
                    runpp (net_after (runpp n)) = Raises e n' ->
                    d = [ ("status", VStr "error");
                          ("message", VStr (if is_RuntimeError e then str e
                                            else "Contingency analysis failed: " +:+ str e)) ])
              /\ (forall indices n',
                    resolve_indices n ct element_indices = inr indices ->
                    runpp (net_after (runpp n)) = Returns n' ->
                    dict_get "status" d = Some (VStr "success")
                    /\ exists results,
                         contingency_results d = Some results
                         /\ length results = length indices))).
Proof.
  assert (Hfailed : forall e,
             analysis_failed e
             = [ ("status", VStr "error");
                 ("message", VStr (if is_RuntimeError e then str e
                                   else "Contingency analysis failed: " +:+ str e)) ]).
  { intros e. unfold analysis_failed. destruct (is_RuntimeError e); reflexivity. }
  destruct (PANDAPOWER_AVAILABLE w) eqn:Hav.
  - assert (Hrun : fst (run_contingency_analysis runpp repr ct element_indices w)
                   = match fst (analysis runpp repr ct element_indices w) with
                     | Ok d => Ok d
                     | Raise e => Ok (analysis_failed e)
                     end).
    { unfold run_contingency_analysis, try_except. rewrite Hav. simpl.
      destruct (analysis runpp repr ct element_indices w) as [[d|e] w']; reflexivity. }
    destruct (fst (analysis runpp repr ct element_indices w)) as [d|e] eqn:Ha.
    + exists d. split; [exact Hrun|].
      split; [exact (analysis_value ct element_indices w d Ha)|].
      split; [discriminate|]. intros _.
      split; [intros d' [= <-]; reflexivity|].
      split; [discriminate|]. split.
      * intros Hcur. exfalso. revert Ha. unfold analysis. rewrite bind_unfold.
        unfold _get_network. rewrite Hcur. discriminate.
      * intros l n Hcur Hl. split; [|split].
        -- intros -> Hacc. revert Ha.
           rewrite (analysis_rejected w l n ct None _ Hcur Hl (resolve_indices_unknown n ct Hacc)).
           intros [= <-]. reflexivity.
        -- intros indices e n' Hres Hfin. revert Ha.
           rewrite (analysis_spec runpp repr w l n ct _ indices Hcur Hl Hres).
           rewrite Hfin. discriminate.
        -- intros indices n' Hres Hfin. revert Ha.
           rewrite (analysis_spec runpp repr w l n ct _ indices Hcur Hl Hres).
           rewrite Hfin. simpl. intros [= <-].
           split; [reflexivity|]. eexists. split; [reflexivity|].
           rewrite !length_map. reflexivity.
    + exists (analysis_failed e). split; [exact Hrun|].
      split.
      { right. pose proof (analysis_failed_status e) as (Hs & Hm & _).
        split; assumption. }
      split; [discriminate|]. intros _.
      split; [discriminate|].
      split; [intros e' [= <-]; apply Hfailed|]. split.
      * intros Hcur. revert Ha. unfold analysis. rewrite bind_unfold.
        unfold _get_network. rewrite Hcur. simpl. intros [= <-].
        split; reflexivity.
      * intros l n Hcur Hl. split; [|split].
        -- intros -> Hacc. revert Ha.
           rewrite (analysis_rejected w l n ct None _ Hcur Hl (resolve_indices_unknown n ct Hacc)).
           discriminate.
        -- intros indices e' n' Hres Hfin. revert Ha.
           rewrite (analysis_spec runpp repr w l n ct _ indices Hcur Hl Hres).
           rewrite Hfin. simpl. intros [= <-]. apply Hfailed.
        -- intros indices n' Hres Hfin. revert Ha.
           rewrite (analysis_spec runpp repr w l n ct _ indices Hcur Hl Hres).
           rewrite Hfin. discriminate.
  - unfold run_contingency_analysis. rewrite Hav. simpl.
    eexists. split; [reflexivity|]. split.
    + right. split; [reflexivity|]. eexists. reflexivity.
    + split; [reflexivity | discriminate].
Qed.

End Totality.

(** ** The statements on the fixtures *)

Lemma toy_runpp_converged (m m' : Net) :
  toy_runpp m = Returns m' -> converged m' = true.
Proof.
  unfold toy_runpp. destruct (Nat.eqb (in_service_count (line m)) 0); [discriminate|].
  intros [= <-]. reflexivity.
Qed.

Lemma toy_runpp_topology (m : Net) :
  topology (net_after (toy_runpp m)) = topology m.
Proof.
  unfold toy_runpp. destruct (Nat.eqb (in_service_count (line m)) 0); reflexivity.
Qed.

Lemma toy_runpp_reads_topology (m m' : Net) :
  topology m = topology m' -> toy_runpp m = toy_runpp m'.
Proof.
  intros [= H1 H2 H3 H4]. unfold toy_runpp, solved_by_toy, failed_by_toy.
  rewrite H1, H2, H3, H4. reflexivity.
Qed.

Lemma final_solve_failure_discards_report_witness :
  exists d,
    fst (run_contingency_analysis toy_runpp quoted "line" None (world_of dead_net)) = Ok d
    /\ d = analysis_failed not_converged
    /\ dict_get "status" d = Some (VStr "error")
    /\ contingency_results d = None
    /\ dict_get "base_case_converged" d = None
    /\ dict_get "base_case_losses_mw" d = None.
Proof.
  apply (final_solve_failure_discards_report toy_runpp quoted (world_of dead_net)
           0%nat dead_net "line" None [0] not_converged
           (failed_by_toy (failed_by_toy dead_net))); reflexivity.
Defined.

Lemma explicit_indices_skip_kind_check_witness :
  accepted_kind "breaker" = false
  /\ fst (run_contingency_analysis toy_runpp quoted "breaker" (Some [0])
            (world_of example_net)) =
     Ok (report "breaker" [0] true
           (snd (base_fields (toy_runpp example_net)))
           [failed_entry "breaker" 0 (KeyError quoted "breaker")]).
Proof.
  apply (explicit_indices_skip_kind_check toy_runpp quoted (world_of example_net)
           0%nat example_net "breaker" [0]
           (solved_by_toy example_pristine)); reflexivity.
Defined.

(** Against C3 as stated.  In the outage of line 0 of the example
    network the solve returns and converges with transformer 7 loaded at 150
    percent, and the recorded loading violations are [1], the overloaded
    line alone: the transformer is not among them. *)
Lemma transformer_overload_not_recorded :
  exists d results entry c,
    fst (run_contingency_analysis toy_runpp quoted "line" None (world_of example_net)) = Ok d
    /\ contingency_results d = Some results
    /\ results !! 0%nat = Some (VDict entry)
    /\ dict_get "converged" entry = Some (VBool true)
    /\ outage example_pristine "line" 0 = Some example_case_0
    /\ toy_runpp example_case_0 = Returns c
    /\ res_trafo c = [(7, ResTrafo.mk 150%float)]
    /\ PrimFloat.ltb 100%float 150%float = true
    /\ dict_get "loading_violations" entry = Some (VList [VInt 1])
    /\ existsb (Z.eqb 7) [1] = false.
Proof.
  eexists. eexists. eexists. eexists.
  split; [vm_compute; reflexivity|].
  split; [reflexivity|]. split; [reflexivity|]. split; [reflexivity|].
  split; [reflexivity|]. split; [reflexivity|].
  repeat split; reflexivity.
Qed.

Lemma loading_violations_record_lines_only_witness :
  exists d results entry lv,
    fst (run_contingency_analysis toy_runpp quoted "line" None (world_of example_net)) = Ok d
    /\ contingency_results d = Some results
    /\ results !! 0%nat = Some (VDict entry)
    /\ dict_get "converged" entry = Some (VBool true)
    /\ dict_get "loading_violations" entry = Some (VList (List.map VInt lv))
    /\ In 1 lv
    /\ ~ In 0 lv.
Proof.
  destruct (loading_violations_record_lines_only toy_runpp quoted
              (world_of example_net) 0%nat example_net "line" None [0; 1]
              (solved_by_toy example_pristine) 0%nat 0
              eq_refl eq_refl eq_refl eq_refl eq_refl eq_refl)
    as (d & results & entry & Hd & Hr & He & Hconv).
  assert (Hentry : dict_get "converged" entry = Some (VBool true)).
  { injection Hd as <-. injection Hr as <-. injection He as <-. reflexivity. }
  destruct (Hconv Hentry) as (c0 & c & lv & H0 & H1 & Hlv & Hiff & _).
  injection H0 as <-. injection H1 as <-.
  exists d, results, entry, lv.
  split; [exact Hd|]. split; [exact Hr|]. split; [exact He|].
  split; [exact Hentry|]. split; [exact Hlv|]. split.
  - apply Hiff. exists (ResLine.mk 120%float 0.05%float). split.
    + right. left. reflexivity.
    + reflexivity.
  - intros Hin. apply Hiff in Hin. destruct Hin as (row & Hin & Hrow).
    destruct Hin as [Hin | [Hin | []]].
    + injection Hin as <-. discriminate Hrow.
    + discriminate Hin.
Defined.

Lemma violation_thresholds_strict_witness :
  exists d results entry vv lv,
    fst (run_contingency_analysis toy_runpp quoted "line" None (world_of example_net)) = Ok d
    /\ contingency_results d = Some results
    /\ results !! 1%nat = Some (VDict entry)
    /\ dict_get "voltage_violations" entry = Some (VList (List.map VInt vv))
    /\ dict_get "loading_violations" entry = Some (VList (List.map VInt lv))
    /\ In 2 vv
    /\ In 0 lv
    /\ ~ In 1 lv.
Proof.
  destruct (violation_thresholds_strict toy_runpp quoted
              (world_of example_net) 0%nat example_net "line" None [0; 1]
              (solved_by_toy example_pristine) 1%nat 1
              example_case_1 (solved_by_toy example_case_1)
              eq_refl eq_refl eq_refl eq_refl eq_refl eq_refl eq_refl eq_refl)
    as (d & results & entry & vv & lv & Hd & Hr & He & Hv & Hl & Hvv & Hlv & _).
  exists d, results, entry, vv, lv.
  split; [exact Hd|]. split; [exact Hr|]. split; [exact He|].
  split; [exact Hv|]. split; [exact Hl|]. split; [|split].
  - apply Hvv. exists (ResBus.mk 0.93%float). split.
    + right. right. left. reflexivity.
    + left. reflexivity.
  - apply Hlv. exists (ResLine.mk 120%float 0.05%float). split.
    + left. reflexivity.
    + reflexivity.
  - intros Hin. apply Hlv in Hin. destruct Hin as (row & Hin & Hrow).
    destruct Hin as [Hin | [Hin | []]].
    + discriminate Hin.
    + injection Hin as <-. discriminate Hrow.
Defined.

Lemma one_entry_per_target_index_witness :
  exists d results e0 e1,
    fst (run_contingency_analysis toy_runpp quoted "line" None (world_of example_net)) = Ok d
    /\ contingency_results d = Some results
    /\ length results = 2%nat
    /\ results !! 0%nat = Some (VDict e0)
    /\ dict_get "contingency" e0 = Some (VStr "line_0")
    /\ results !! 1%nat = Some (VDict e1)
    /\ dict_get "contingency" e1 = Some (VStr "line_1").
Proof.
  destruct (one_entry_per_target_index toy_runpp quoted (world_of example_net)
              0%nat example_net "line" None (solved_by_toy example_pristine)
              eq_refl eq_refl eq_refl eq_refl eq_refl)
    as (d & results & Hd & _ & Hr & Hlen & Hk & _).
  destruct (Hk 0%nat 0 eq_refl) as (e0 & H0 & N0).
  destruct (Hk 1%nat 1 eq_refl) as (e1 & H1 & N1).
  exists d, results, e0, e1.
  split; [exact Hd|]. split; [exact Hr|]. split; [exact Hlen|].
  split; [exact H0|]. split; [exact N0|]. split; [exact H1|]. exact N1.
Defined.

Lemma base_case_failure_returns_no_report_witness :
  let out := run_contingency_analysis toy_runpp quoted "line" None (world_of dead_net) in
  toy_runpp dead_net = Raises not_converged (failed_by_toy dead_net)
  /\ length (objs (snd out)) = 3%nat
  /\ fst out
     = Ok [ ("status", VStr "error");
            ("message",
             VStr "Contingency analysis failed: Power Flow nr did not converge after 10 iterations!") ]
  /\ dict_get "base_case_converged"
       [ ("status", VStr "error");
         ("message",
          VStr "Contingency analysis failed: Power Flow nr did not converge after 10 iterations!") ]
     = None.
Proof.
  destruct (base_case_failure_returns_no_report toy_runpp quoted
              toy_runpp_topology toy_runpp_reads_topology
              (world_of dead_net) 0%nat dead_net "line" None [0] not_converged
              (failed_by_toy dead_net)
              eq_refl eq_refl eq_refl eq_refl eq_refl)
    as (_ & Hlen & _ & _ & _ & Hd & Hno).
  split; [reflexivity|]. split; [exact Hlen|]. split; [exact Hd|].
  exact (proj1 (proj2 (Hno _ Hd))).
Defined.

Lemma failed_entries_carry_only_the_error_witness :
  let out := run_contingency_analysis toy_runpp quoted "line" None (world_of weak_net) in
  exists d results,
    fst out = Ok d
    /\ contingency_results d = Some results
    /\ length results = 2%nat
    /\ results !! 0%nat
       = Some (VDict [ ("contingency", VStr "line_0");
                       ("converged", VBool false);
                       ("error", VStr "Power Flow nr did not converge after 10 iterations!") ])
    /\ objs (snd out) !! 2%nat
       = Some (failed_by_toy (with_table (solved_by_toy weak_net) "line" [(0, off); (1, off)]))
    /\ (exists solved,
          results !! 1%nat = Some (VDict solved)
          /\ dict_get "converged" solved = Some (VBool true)).
Proof.
  destruct (failed_entries_carry_only_the_error toy_runpp quoted (world_of weak_net)
              0%nat weak_net "line" None [0; 1]
              (solved_by_toy (solved_by_toy weak_net))
              toy_runpp_converged eq_refl eq_refl eq_refl eq_refl eq_refl)
    as (d & results & Hd & Hr & Hlen & _ & Hk).
  assert (H0 : int64_label 0) by (unfold int64_label; lia).
  assert (H1 : int64_label 1) by (unfold int64_label; lia).
  destruct (Hk 0%nat 0 _ eq_refl H0 eq_refl) as (Hobj & Hfailed).
  destruct (Hk 1%nat 1 _ eq_refl H1 eq_refl) as (_ & Hsolved & Hflag).
  exists d, results.
  split; [exact Hd|]. split; [exact Hr|]. split; [exact Hlen|].
  split; [exact Hfailed|]. split; [exact Hobj|].
  eexists. split; [exact Hsolved | exact Hflag].
Defined.

Lemma each_case_copies_the_pristine_network_witness :
  let w := mkWorld true (Some 0%nat) [example_pristine; example_pristine] in
  let out := contingency_loop toy_runpp quoted 1%nat "line" [0; 1] [] w in
  length (objs (snd out)) = 4%nat
  /\ objs (snd out) !! 0%nat = Some example_pristine
  /\ objs (snd out) !! 1%nat = Some example_pristine
  /\ objs (snd out) !! 2%nat = Some (solved_by_toy example_case_0)
  /\ objs (snd out) !! 3%nat = Some (solved_by_toy example_case_1)
  /\ line (solved_by_toy example_case_1) = [(0, on); (1, off)].
Proof.
  destruct (each_case_copies_the_pristine_network toy_runpp quoted
              (mkWorld true (Some 0%nat) [example_pristine; example_pristine])
              1%nat example_pristine "line" [0; 1] [] eq_refl)
    as (Hlen & Hkeep & _ & _ & Hk).
  assert (H0 : int64_label 0) by (unfold int64_label; lia).
  assert (H1 : int64_label 1) by (unfold int64_label; lia).
  split; [exact Hlen|].
  split; [exact (Hkeep 0%nat example_pristine eq_refl)|].
  split; [exact (Hkeep 1%nat example_pristine eq_refl)|].
  split; [exact (proj1 (Hk 0%nat 0 example_case_0 eq_refl H0 eq_refl))|].
  split; [exact (proj1 (Hk 1%nat 1 example_case_1 eq_refl H1 eq_refl))|].
  reflexivity.
Defined.

Lemma active_network_topology_preserved_witness :
  let w' := snd (run_contingency_analysis toy_runpp quoted "line" None
                   (world_of example_net)) in
  _current_net w' = Some 0%nat
  /\ exists n', objs w' !! 0%nat = Some n'
                /\ topology n' = topology example_net
                /\ forall key, getitem n' key = getitem example_net key.
Proof.
  exact (active_network_topology_preserved toy_runpp quoted (world_of example_net)
           0%nat example_net "line" None toy_runpp_topology eq_refl eq_refl).
Defined.

(** * Further properties of the tools *)

(** ** The order of the floating-point values *)

Lemma SFltb_key (x y : SpecFloat.spec_float) :
  SpecFloat.SFltb x y = true <->
  x <> SpecFloat.S754_nan /\ y <> SpecFloat.S754_nan
  /\ key_lt (float_key x) (float_key y).
Proof.
  unfold SpecFloat.SFltb, key_lt.
  destruct x as [sx|sx| |sx mx ex], y as [sy|sy| |sy my ey];
    try destruct sx; try destruct sy; simpl;
    try (split; [discriminate | intros (Hx & Hy & Hk); try congruence; lia]);
    try (split; [intros _; repeat split; try discriminate; lia | reflexivity]).
  - change (Pos.compare_cont Eq mx my) with (Pos.compare mx my).
    destruct (Z.compare_spec ex ey); destruct (Pos.compare_spec mx my); simpl;
      split; try discriminate; try (intros (_ & _ & Hk); lia);
      intros _; repeat split; try discriminate; lia.
  - change (Pos.compare_cont Eq mx my) with (Pos.compare mx my).
    destruct (Z.compare_spec ex ey); destruct (Pos.compare_spec mx my); simpl;
      split; try discriminate; try (intros (_ & _ & Hk); lia);
      intros _; repeat split; try discriminate; lia.
Qed.

Lemma ltb_key (x y : float) :
  PrimFloat.ltb x y = true <->
  is_number x /\ is_number y /\ key_lt (key_of x) (key_of y).
Proof. rewrite FloatAxioms.ltb_spec. apply SFltb_key. Qed.

Lemma ltb_false_key (x y : float) :
  is_number x -> is_number y -> PrimFloat.ltb x y = false ->
  ~ key_lt (key_of x) (key_of y).
Proof.
  intros Hx Hy H Hk.
  assert (PrimFloat.ltb x y = true) by (apply ltb_key; auto).
  congruence.
Qed.

Lemma is_nan_false (x : float) : is_nan x = false -> is_number x.
Proof.
  unfold is_nan, is_number. rewrite FloatAxioms.eqb_spec.
  unfold SpecFloat.SFeqb. intros H Hn. rewrite Hn in H. discriminate H.
Qed.

Lemma nan_not_number : ~ is_number PrimFloat.nan.
Proof. intros H. apply H. reflexivity. Qed.

Lemma key_lt_le_trans (a b c : Z * Z * Z) :
  key_lt a b -> ~ key_lt c b -> key_lt a c.
Proof. unfold key_lt. lia. Qed.

Lemma key_le_lt_trans (a b c : Z * Z * Z) :
  ~ key_lt b a -> key_lt b c -> key_lt a c.
Proof. unfold key_lt. lia. Qed.

Lemma key_le_trans (a b c : Z * Z * Z) :
  ~ key_lt a b -> ~ key_lt b c -> ~ key_lt a c.
Proof. unfold key_lt. lia. Qed.

Lemma key_lt_not_le (a b c : Z * Z * Z) :
  ~ key_lt a b -> key_lt c b -> ~ key_lt a c.
Proof. unfold key_lt. lia. Qed.

Lemma key_lt_irrefl (a : Z * Z * Z) : ~ key_lt a a.
Proof. unfold key_lt. lia. Qed.

(** The running maximum of numbers is one of them and no number is above it. *)
Lemma fold_max_spec (r : list float) :
  forall x,
    is_number x -> (forall y, In y r -> is_number y) ->
    let m := fold_left (fun m y => if PrimFloat.ltb m y then y else m) r x in
    In m (x :: r) /\ forall y, In y (x :: r) -> ~ key_lt (key_of m) (key_of y).
Proof.
  induction r as [|y r IH]; intros x Hx Hr; simpl.
  - split; [left; reflexivity|]. intros y [<-|[]]. apply key_lt_irrefl.
  - assert (Hy : is_number y) by (apply Hr; left; reflexivity).
    assert (Hr' : forall z, In z r -> is_number z) by (intros z Hz; apply Hr; right; exact Hz).
    destruct (PrimFloat.ltb x y) eqn:Hxy.
    + destruct (IH y Hy Hr') as [Hin Hmax]. split.
      * right. exact Hin.
      * intros z [<-|Hz]; [|exact (Hmax z Hz)].
        apply ltb_key in Hxy. destruct Hxy as (_ & _ & Hk).
        apply (key_lt_not_le _ (key_of y)); [|exact Hk].
        apply Hmax. left. reflexivity.
    + destruct (IH x Hx Hr') as [Hin Hmax]. split.
      * destruct Hin as [<-|Hin]; [left; reflexivity | right; right; exact Hin].
      * intros z [<-|[<-|Hz]].
        -- apply Hmax. left. reflexivity.
        -- apply (key_le_trans _ (key_of x)).
           ++ apply Hmax. left. reflexivity.
           ++ apply ltb_false_key; assumption.
        -- apply Hmax. right. exact Hz.
Qed.

Lemma fold_min_spec (r : list float) :
  forall x,
    is_number x -> (forall y, In y r -> is_number y) ->
    let m := fold_left (fun m y => if PrimFloat.ltb y m then y else m) r x in
    In m (x :: r) /\ forall y, In y (x :: r) -> ~ key_lt (key_of y) (key_of m).
Proof.
  induction r as [|y r IH]; intros x Hx Hr; simpl.
  - split; [left; reflexivity|]. intros y [<-|[]]. apply key_lt_irrefl.
  - assert (Hy : is_number y) by (apply Hr; left; reflexivity).
    assert (Hr' : forall z, In z r -> is_number z) by (intros z Hz; apply Hr; right; exact Hz).
    destruct (PrimFloat.ltb y x) eqn:Hyx.
    + destruct (IH y Hy Hr') as [Hin Hmin]. split.
      * right. exact Hin.
      * intros z [<-|Hz]; [|exact (Hmin z Hz)].
        apply ltb_key in Hyx. destruct Hyx as (_ & _ & Hk).
        intros Hzm. apply (Hmin y (or_introl eq_refl)).
        unfold key_lt in *. lia.
    + destruct (IH x Hx Hr') as [Hin Hmin]. split.
      * destruct Hin as [<-|Hin]; [left; reflexivity | right; right; exact Hin].
      * intros z [<-|[<-|Hz]].
        -- apply Hmin. left. reflexivity.
        -- apply (key_le_trans _ (key_of x)).
           ++ apply ltb_false_key; assumption.
           ++ apply Hmin. left. reflexivity.
        -- apply Hmin. right. exact Hz.
Qed.

Lemma filter_numbers (l : list float) (y : float) :
  In y (List.filter (fun x => negb (is_nan x)) l) <-> In y l /\ is_nan y = false.
Proof. rewrite filter_In, negb_true_iff. reflexivity. Qed.

Lemma is_number_not_nan (y : float) : is_number y -> is_nan y = false.
Proof.
  intros Hnum. destruct (is_nan y) eqn:Hn; [|reflexivity].
  exfalso. unfold is_nan in Hn. apply negb_true_iff in Hn.
  rewrite FloatAxioms.eqb_spec in Hn. unfold SpecFloat.SFeqb in Hn.
  unfold is_number in Hnum.
  destruct (FloatOps.Prim2SF y) as [s|s| |s m e]; try congruence.
  - discriminate Hn.
  - destruct s; discriminate Hn.
  - simpl in Hn. destruct s; rewrite Z.compare_refl in Hn;
      change (Pos.compare_cont Eq m m) with (Pos.compare m m) in Hn;
      rewrite Pos.compare_refl in Hn; discriminate Hn.
Qed.

(** [Series.max]: NaN when the series has no number, else one of its
    numbers, with no number of the series above it. *)
Lemma series_max_spec (l : list float) :
  (series_max l = PrimFloat.nan /\ forall y, In y l -> is_nan y = true)
  \/ (In (series_max l) l /\ is_number (series_max l)
      /\ forall y, In y l -> is_number y ->
                   ~ key_lt (key_of (series_max l)) (key_of y)).
Proof.
  unfold series_max.
  destruct (List.filter (fun x => negb (is_nan x)) l) as [|x r] eqn:Hf.
  - left. split; [reflexivity|]. intros y Hy.
    destruct (is_nan y) eqn:Hn; [reflexivity|].
    assert (In y []) by (rewrite <- Hf; apply filter_numbers; auto). contradiction.
  - right.
    assert (Hall : forall y, In y (x :: r) -> In y l /\ is_nan y = false)
      by (intros y Hy; apply filter_numbers; rewrite Hf; exact Hy).
    destruct (fold_max_spec r x) as [Hin Hmax].
    + apply is_nan_false, Hall. left. reflexivity.
    + intros y Hy. apply is_nan_false, Hall. right. exact Hy.
    + split; [apply Hall; exact Hin|]. split; [apply is_nan_false, Hall; exact Hin|].
      intros y Hy Hnum. apply Hmax. rewrite <- Hf. apply filter_numbers.
      split; [exact Hy|]. apply is_number_not_nan. exact Hnum.
Qed.

Lemma series_min_spec (l : list float) :
  (series_min l = PrimFloat.nan /\ forall y, In y l -> is_nan y = true)
  \/ (In (series_min l) l /\ is_number (series_min l)
      /\ forall y, In y l -> is_number y ->
                   ~ key_lt (key_of y) (key_of (series_min l))).
Proof.
  unfold series_min.
  destruct (List.filter (fun x => negb (is_nan x)) l) as [|x r] eqn:Hf.
  - left. split; [reflexivity|]. intros y Hy.
    destruct (is_nan y) eqn:Hn; [reflexivity|].
    assert (In y []) by (rewrite <- Hf; apply filter_numbers; auto). contradiction.
  - right.
    assert (Hall : forall y, In y (x :: r) -> In y l /\ is_nan y = false)
      by (intros y Hy; apply filter_numbers; rewrite Hf; exact Hy).
    destruct (fold_min_spec r x) as [Hin Hmin].
    + apply is_nan_false, Hall. left. reflexivity.
    + intros y Hy. apply is_nan_false, Hall. right. exact Hy.
    + split; [apply Hall; exact Hin|]. split; [apply is_nan_false, Hall; exact Hin|].
      intros y Hy Hnum. apply Hmin. rewrite <- Hf. apply filter_numbers.
      split; [exact Hy|]. apply is_number_not_nan. exact Hnum.
Qed.

(** Some value of the series is above the bound exactly when its maximum is. *)
Lemma series_max_above (l : list float) (b : float) :
  (exists y, In y l /\ PrimFloat.ltb b y = true)
  <-> PrimFloat.ltb b (series_max l) = true.
Proof.
  split.
  - intros (y & Hy & Hby). apply ltb_key in Hby. destruct Hby as (Hb & Hny & Hk).
    destruct (series_max_spec l) as [[_ Hnan] | (Hin & Hnum & Hmax)].
    + specialize (Hnan y Hy). rewrite (is_number_not_nan y Hny) in Hnan. discriminate.
    + apply ltb_key. split; [exact Hb|]. split; [exact Hnum|].
      apply (key_lt_le_trans _ (key_of y)); [exact Hk|]. exact (Hmax y Hy Hny).
  - intros Hm.
    destruct (series_max_spec l) as [[Hnan _] | (Hin & _)].
    + rewrite Hnan in Hm. apply ltb_key in Hm. destruct Hm as (_ & Hn & _).
      exfalso. exact (nan_not_number Hn).
    + eauto.
Qed.

Lemma series_min_below (l : list float) (b : float) :
  (exists y, In y l /\ PrimFloat.ltb y b = true)
  <-> PrimFloat.ltb (series_min l) b = true.
Proof.
  split.
  - intros (y & Hy & Hyb). apply ltb_key in Hyb. destruct Hyb as (Hny & Hb & Hk).
    destruct (series_min_spec l) as [[_ Hnan] | (Hin & Hnum & Hmin)].
    + specialize (Hnan y Hy). rewrite (is_number_not_nan y Hny) in Hnan. discriminate.
    + apply ltb_key. split; [exact Hnum|]. split; [exact Hb|].
      apply (key_le_lt_trans _ (key_of y)); [|exact Hk]. exact (Hmin y Hy Hny).
  - intros Hm.
    destruct (series_min_spec l) as [[Hnan _] | (Hin & _)].
    + rewrite Hnan in Hm. apply ltb_key in Hm. destruct Hm as (Hn & _).
      exfalso. exact (nan_not_number Hn).
    + eauto.
Qed.

Lemma map_nonempty_exists {A B} (f : A -> B) (p : A -> bool) (l : list A) :
  List.map f (List.filter p l) <> [] <-> exists a, In a l /\ p a = true.
Proof.
  split.
  - destruct (List.filter p l) as [|a r] eqn:Hf;
      [intros H; exfalso; apply H; reflexivity|]. intros _.
    exists a. apply filter_In. rewrite Hf. left. reflexivity.
  - intros (a & Ha & Hp) Hnil.
    assert (Hin : In a (List.filter p l)) by (apply filter_In; auto).
    destruct (List.filter p l); [contradiction | discriminate].
Qed.

(** X5.  In the entry of a solved case the summary extrema agree with the
    violation lists: there is a loading violation exactly when
    [max_loading_percent] is above 100, and a voltage violation exactly when
    [min_voltage_pu] is below 0.95 or [max_voltage_pu] is above 1.05. *)
Theorem extrema_agree_with_violation_lists (ct : string) (idx : Z) (c : Net) :
  exists vv lv max_loading min_voltage max_voltage,
    dict_get "voltage_violations" (solved_entry ct idx c) = Some (VList (List.map VInt vv))
    /\ dict_get "loading_violations" (solved_entry ct idx c) = Some (VList (List.map VInt lv))
    /\ dict_get "max_loading_percent" (solved_entry ct idx c) = Some (VFloat max_loading)
    /\ dict_get "min_voltage_pu" (solved_entry ct idx c) = Some (VFloat min_voltage)
    /\ dict_get "max_voltage_pu" (solved_entry ct idx c) = Some (VFloat max_voltage)
    /\ (lv <> [] <-> PrimFloat.ltb 100%float max_loading = true)
    /\ (vv <> [] <-> PrimFloat.ltb min_voltage 0.95%float = true
                     \/ PrimFloat.ltb 1.05%float max_voltage = true).
Proof.
  eexists. eexists. eexists. eexists. eexists.
  split; [reflexivity|]. split; [reflexivity|]. split; [reflexivity|].
  split; [reflexivity|]. split; [reflexivity|]. split.
  - unfold loading_violations, loading_violation.
    rewrite map_nonempty_exists, <- series_max_above. split.
    + intros ([z row] & Hin & Hv). exists (ResLine.loading_percent row).
      split; [|exact Hv]. apply in_map_iff. exists (z, row). auto.
    + intros (y & Hy & Hv). apply in_map_iff in Hy.
      destruct Hy as (r & <- & Hr). exists r. auto.
  - unfold voltage_violations, vm_pu_violation.
    rewrite map_nonempty_exists, <- series_min_below, <- series_max_above. split.
    + intros ([z row] & Hin & Hv). simpl in Hv. apply orb_true_iff in Hv.
      destruct Hv as [Hv|Hv]; [left|right];
        (exists (ResBus.vm_pu row); split; [|exact Hv];
         apply in_map_iff; exists (z, row); auto).
    + intros [(y & Hy & Hv) | (y & Hy & Hv)]; apply in_map_iff in Hy;
        destruct Hy as (r & <- & Hr); exists r; (split; [exact Hr|]);
        apply orb_true_iff; [left | right]; exact Hv.
Qed.

(** ** The network accessor *)

(** X1.  The accessor returns the network that was set last and changes
    nothing; it raises exactly when no network has been set.  Setting a
    network touches neither the store nor the availability flag. *)
Theorem set_network_then_get_network (w : World) (a b : loc) :
  snd (_set_network b (snd (_set_network a w))) = snd (_set_network b w)
  /\ _get_network (snd (_set_network b w)) = (Ok b, snd (_set_network b w))
  /\ objs (snd (_set_network b w)) = objs w
  /\ PANDAPOWER_AVAILABLE (snd (_set_network b w)) = PANDAPOWER_AVAILABLE w
  /\ snd (_get_network w) = w
  /\ ((exists e, fst (_get_network w) = Raise e) <-> _current_net w = None).
Proof.
  repeat split; try reflexivity.
  - unfold _get_network. destruct (_current_net w); reflexivity.
  - unfold _get_network. destruct (_current_net w); [|reflexivity].
    intros (e & He). discriminate He.
  - unfold _get_network. intros ->. eexists. reflexivity.
Qed.

(** ** What a contingency analysis does to the session *)

Section Session.

Variable runpp : Net -> SolveOutcome.
Variable repr : string -> string.

Lemma run_contingency_analysis_unavailable (w : World) (ct : string)
    (element_indices : option (list Z)) :
  PANDAPOWER_AVAILABLE w = false ->
  run_contingency_analysis runpp repr ct element_indices w =
  (Ok [ ("status", VStr "error"); ("message", VStr "pandapower is not installed") ], w).
Proof.
  intros Hav. unfold run_contingency_analysis. rewrite Hav. reflexivity.
Qed.

Lemma run_contingency_analysis_dangling (w : World) (l : loc) (ct : string)
    (element_indices : option (list Z)) :
  PANDAPOWER_AVAILABLE w = true ->
  _current_net w = Some l ->
  objs w !! l = None ->
  run_contingency_analysis runpp repr ct element_indices w =
  (Ok (analysis_failed dangling), w).
Proof.
  intros Hav Hcur Hl. unfold run_contingency_analysis, try_except, analysis.
  rewrite Hav. simpl. rewrite bind_unfold. unfold _get_network. rewrite Hcur.
  rewrite bind_unfold. unfold load. rewrite Hl. reflexivity.
Qed.

(** X2.  A call that fails before the base case leaves the session as it
    was: with pandapower missing, with no active network, or with a kind
    other than the three when no list is passed, nothing is solved, nothing
    is copied, and the value returned has the status "error". *)
Theorem early_errors_leave_the_session_untouched (w : World) (ct : string)
    (element_indices : option (list Z)) :
  PANDAPOWER_AVAILABLE w = false
  \/ _current_net w = None
  \/ (exists l n, _current_net w = Some l /\ objs w !! l = Some n
                  /\ element_indices = None /\ accepted_kind ct = false) ->
  snd (run_contingency_analysis runpp repr ct element_indices w) = w
  /\ exists d,
       fst (run_contingency_analysis runpp repr ct element_indices w) = Ok d
       /\ dict_get "status" d = Some (VStr "error")
       /\ contingency_results d = None.
Proof.
  intros H. destruct (PANDAPOWER_AVAILABLE w) eqn:Hav.
  - destruct H as [H | [Hcur | (l & n & Hcur & Hl & -> & Hacc)]]; [discriminate| |].
    + rewrite (run_contingency_analysis_no_network runpp repr w ct _ Hav Hcur).
      split; [reflexivity|]. eexists. repeat split; reflexivity.
    + rewrite (unknown_kind_rejected_without_list runpp repr w l n ct Hav Hcur Hl Hacc).
      split; [reflexivity|]. eexists. repeat split; reflexivity.
  - rewrite (run_contingency_analysis_unavailable w ct _ Hav).
    split; [reflexivity|]. eexists. repeat split; reflexivity.
Qed.

(** X3.  A call that reaches the base case adds to the store the pristine
    copy and one case object per target index, and changes no object of
    the store other than the active network. *)
Theorem other_networks_are_untouched (w : World) (l : loc) (n : Net)
    (ct : string) (element_indices : option (list Z)) (indices : list Z) :
  PANDAPOWER_AVAILABLE w = true ->
  _current_net w = Some l ->
  objs w !! l = Some n ->
  resolve_indices n ct element_indices = inr indices ->
  let w' := snd (run_contingency_analysis runpp repr ct element_indices w) in
  length (objs w') = (length (objs w) + 1 + length indices)%nat
  /\ (forall l' m, l' <> l -> objs w !! l' = Some m -> objs w' !! l' = Some m)
  /\ objs w' !! length (objs w) = Some (net_after (runpp n))
  /\ PANDAPOWER_AVAILABLE w' = true.
Proof.
  intros Hav Hcur Hl Hres w'. subst w'.
  rewrite (run_contingency_analysis_spec runpp repr w l n ct _ indices Hav Hcur Hl Hres).
  simpl. split; [|split; [|split]].
  - rewrite length_app, length_insert. simpl. rewrite length_map. lia.
  - intros l' m Hne Hl'. apply lookup_app_l_Some.
    rewrite list_lookup_insert_ne by congruence. exact Hl'.
  - rewrite lookup_app_r by (rewrite length_insert; lia).
    rewrite length_insert, Nat.sub_diag. reflexivity.
  - exact Hav.
Qed.

(** The position of an index in the list, the other indices and their
    order have no part in its entry. *)
Lemma results_by_index (w : World) (l : loc) (n : Net) (ct : string)
    (element_indices : option (list Z)) (indices : list Z) (n2 : Net) :
  PANDAPOWER_AVAILABLE w = true ->
  _current_net w = Some l ->
  objs w !! l = Some n ->
  resolve_indices n ct element_indices = inr indices ->
  runpp (net_after (runpp n)) = Returns n2 ->
  exists d,
    fst (run_contingency_analysis runpp repr ct element_indices w) = Ok d
    /\ contingency_results d
       = Some (List.map (fun idx => VDict (case_entry runpp repr (net_after (runpp n)) ct idx))
                 indices).
Proof.
  intros Hav Hcur Hl Hres Hfin.
  rewrite (run_contingency_analysis_spec runpp repr w l n ct _ indices Hav Hcur Hl Hres).
  rewrite Hfin. simpl. eexists. split; [reflexivity|].
  unfold contingency_results. simpl. rewrite List.map_map. reflexivity.
Qed.

(** X4.  The entry of an index depends on the network and on the index
    alone: two calls on the same session give the same entry for the same
    index, wherever it stands in either list and whatever the other indices
    are; and the entries of a concatenated list are those of its parts. *)
Theorem entry_depends_on_its_index_alone (w : World) (l : loc) (n : Net)
    (ct : string) (indices indices' : list Z) (n2 : Net) :
  PANDAPOWER_AVAILABLE w = true ->
  _current_net w = Some l ->
  objs w !! l = Some n ->
  runpp (net_after (runpp n)) = Returns n2 ->
  exists d d' d'' results results',
    fst (run_contingency_analysis runpp repr ct (Some indices) w) = Ok d
    /\ fst (run_contingency_analysis runpp repr ct (Some indices') w) = Ok d'
    /\ fst (run_contingency_analysis runpp repr ct (Some (indices ++ indices')) w) = Ok d''
    /\ contingency_results d = Some results
    /\ contingency_results d' = Some results'
    /\ contingency_results d'' = Some (results ++ results')
    /\ (forall i j idx, indices !! i = Some idx -> indices' !! j = Some idx ->
                        exists entry, results !! i = Some entry /\ results' !! j = Some entry).
Proof.
  intros Hav Hcur Hl Hfin.
  destruct (results_by_index w l n ct (Some indices) indices n2 Hav Hcur Hl eq_refl Hfin)
    as (d & Hd & Hr).
  destruct (results_by_index w l n ct (Some indices') indices' n2 Hav Hcur Hl eq_refl Hfin)
    as (d' & Hd' & Hr').
  destruct (results_by_index w l n ct (Some (indices ++ indices')) _ n2 Hav Hcur Hl eq_refl Hfin)
    as (d'' & Hd'' & Hr'').
  exists d, d', d''. eexists. eexists.
  split; [exact Hd|]. split; [exact Hd'|]. split; [exact Hd''|].
  split; [exact Hr|]. split; [exact Hr'|]. split.
  - rewrite Hr'', List.map_app. reflexivity.
  - intros i j idx Hi Hj. eexists. rewrite !lookup_map, Hi, Hj. split; reflexivity.
Qed.

End Session.

Lemma resolve_indices_topology (m m' : Net) (ct : string)
    (element_indices : option (list Z)) :
  topology m = topology m' ->
  resolve_indices m ct element_indices = resolve_indices m' ct element_indices.
Proof.
  intros [= H1 H2 H3 H4]. unfold resolve_indices. rewrite H1, H2, H3. reflexivity.
Qed.

Section SuccessiveCalls.

Variable runpp : Net -> SolveOutcome.
Variable repr : string -> string.

(** The solver writes result fields only, and what it does is decided by the
    element tables of the network it is given. *)
Hypothesis runpp_frame : forall m, topology (net_after (runpp m)) = topology m.
Hypothesis runpp_reads_topology :
  forall m m', topology m = topology m' -> runpp m = runpp m'.

Lemma runpp_again (m : Net) : runpp (net_after (runpp m)) = runpp m.
Proof. apply runpp_reads_topology, runpp_frame. Qed.

(** X6.  With such a solver, a call leaves the active network exactly as a
    single [pp.runpp] of it would. *)
Theorem active_network_left_as_by_one_solve (w : World) (l : loc) (n : Net)
    (ct : string) (element_indices : option (list Z)) (indices : list Z) :
  PANDAPOWER_AVAILABLE w = true ->
  _current_net w = Some l ->
  objs w !! l = Some n ->
  resolve_indices n ct element_indices = inr indices ->
  objs (snd (run_contingency_analysis runpp repr ct element_indices w)) !! l
  = Some (net_after (runpp n))
  /\ objs (snd (pp_runpp runpp l w)) !! l = Some (net_after (runpp n)).
Proof.
  intros Hav Hcur Hl Hres.
  pose proof (lookup_lt_Some _ _ _ Hl) as Hlt. split.
  - rewrite (run_contingency_analysis_spec runpp repr w l n ct _ indices Hav Hcur Hl Hres).
    simpl. rewrite runpp_again.
    apply lookup_app_l_Some, list_lookup_insert_eq. exact Hlt.
  - rewrite (pp_runpp_Some runpp w l n Hl). simpl.
    apply list_lookup_insert_eq. exact Hlt.
Qed.

(** X7.  With such a solver, a call leaves nothing behind that a later call
    reports: after any call, every call returns the value it would have
    returned before it.  In particular the same call made twice returns the
    same value twice. *)
Theorem earlier_calls_do_not_show_in_later_reports (w : World)
    (ct1 ct2 : string) (element_indices1 element_indices2 : option (list Z)) :
  fst (run_contingency_analysis runpp repr ct2 element_indices2
         (snd (run_contingency_analysis runpp repr ct1 element_indices1 w)))
  = fst (run_contingency_analysis runpp repr ct2 element_indices2 w).
Proof.
  destruct (PANDAPOWER_AVAILABLE w) eqn:Hav;
    [|rewrite (run_contingency_analysis_unavailable runpp repr w ct1 _ Hav); reflexivity].
  destruct (_current_net w) as [l|] eqn:Hcur;
    [|rewrite (run_contingency_analysis_no_network runpp repr w ct1 _ Hav Hcur); reflexivity].
  destruct (objs w !! l) as [n|] eqn:Hl;
    [|rewrite (run_contingency_analysis_dangling runpp repr w l ct1 _ Hav Hcur Hl); reflexivity].
  destruct (resolve_indices n ct1 element_indices1) as [d1|indices1] eqn:Hres1;
    [rewrite (run_contingency_analysis_rejected runpp repr w l n ct1 _ d1 Hav Hcur Hl Hres1);
     reflexivity|].
  rewrite (run_contingency_analysis_spec runpp repr w l n ct1 _ indices1 Hav Hcur Hl Hres1).
  simpl. rewrite runpp_again.
  set (n1 := net_after (runpp n)).
  set (w' := set_objs w _).
  assert (Hl' : objs w' !! l = Some n1).
  { subst w'. simpl. apply lookup_app_l_Some, list_lookup_insert_eq.
    exact (lookup_lt_Some _ _ _ Hl). }
  assert (Htop : topology n1 = topology n) by apply runpp_frame.
  assert (Hrun : runpp n1 = runpp n) by apply runpp_again.
  destruct (resolve_indices n ct2 element_indices2) as [d2|indices2] eqn:Hres2.
  - rewrite (run_contingency_analysis_rejected runpp repr w' l n1 ct2 _ d2 Hav Hcur Hl'
               ltac:(rewrite (resolve_indices_topology n1 n _ _ Htop); exact Hres2)).
    rewrite (run_contingency_analysis_rejected runpp repr w l n ct2 _ d2 Hav Hcur Hl Hres2).
    reflexivity.
  - rewrite (run_contingency_analysis_spec runpp repr w' l n1 ct2 _ indices2 Hav Hcur Hl'
               ltac:(rewrite (resolve_indices_topology n1 n _ _ Htop); exact Hres2)).
    rewrite (run_contingency_analysis_spec runpp repr w l n ct2 _ indices2 Hav Hcur Hl Hres2).
    simpl. rewrite Hrun. reflexivity.
Qed.

End SuccessiveCalls.

(** ** The catalogue of built-in networks *)

Lemma registry_set_keys (name : string) (obj : Member) (d : Registry) :
  List.map fst (registry_set name obj d)
  = if existsb (String.eqb name) (List.map fst d)
    then List.map fst d else List.map fst d ++ [name].
Proof.
  induction d as [|[k v] d IH]; simpl; [reflexivity|].
  rewrite (String.eqb_sym name k).
  destruct (String.eqb k name) eqn:Hk; simpl; [reflexivity|].
  rewrite IH. destruct (existsb (String.eqb name) (List.map fst d)); reflexivity.
Qed.

Lemma existsb_eqb_In (name : string) (l : list string) :
  existsb (String.eqb name) l = true <-> In name l.
Proof.
  rewrite existsb_exists. split.
  - intros (x & Hx & Heq). apply String.eqb_eq in Heq. subst x. exact Hx.
  - intros H. exists name. split; [exact H | apply String.eqb_refl].
Qed.

Lemma registry_set_NoDup (name : string) (obj : Member) (d : Registry) :
  List.NoDup (List.map fst d) -> List.NoDup (List.map fst (registry_set name obj d)).
Proof.
  intros Hd. rewrite registry_set_keys.
  destruct (existsb (String.eqb name) (List.map fst d)) eqn:Hex; [exact Hd|].
  apply List.NoDup_app; [exact Hd | apply List.NoDup_cons; [intros [] | apply List.NoDup_nil] |].
  intros x Hx [<-|[]]. apply existsb_eqb_In in Hx. congruence.
Qed.

Lemma registry_set_In (name : string) (obj : Member) (d : Registry)
    (k : string) (v : Member) :
  List.NoDup (List.map fst d) ->
  In (k, v) (registry_set name obj d) <->
  (k = name /\ v = obj) \/ (k <> name /\ In (k, v) d).
Proof.
  induction d as [|[k0 v0] d IH]; simpl; intros Hd.
  - split.
    + intros [[= <- <-]|[]]. left. split; reflexivity.
    + intros [[-> ->]|[_ []]]. left. reflexivity.
  - apply List.NoDup_cons_iff in Hd. destruct Hd as [Hk0 Hd].
    destruct (String.eqb_spec k0 name) as [->|Hne]; simpl.
    + split.
      * intros [[= <- <-]|Hin]; [left; split; reflexivity|].
        right. split; [|right; exact Hin].
        intros ->. apply Hk0. apply in_map_iff. exists (name, v). split; [reflexivity|exact Hin].
      * intros [[-> ->]|[Hk [[= Hk' _]|Hin]]];
          [left; reflexivity | congruence | right; exact Hin].
    + rewrite (IH Hd). split.
      * intros [[= <- <-]|[H|[Hk Hin]]].
        -- right. split; [exact Hne | left; reflexivity].
        -- left. exact H.
        -- right. split; [exact Hk | right; exact Hin].
      * intros [H|[Hk [[= <- <-]|Hin]]].
        -- right. left. exact H.
        -- left. reflexivity.
        -- right. right. split; assumption.
Qed.

Lemma registry_get_In (d : Registry) (k : string) (v : Member) :
  List.NoDup (List.map fst d) ->
  registry_get k d = Some v <-> In (k, v) d.
Proof.
  induction d as [|[k0 v0] d IH]; simpl; intros Hd.
  - split; [discriminate | intros []].
  - apply List.NoDup_cons_iff in Hd. destruct Hd as [Hk0 Hd].
    destruct (String.eqb_spec k0 k) as [->|Hne].
    + split.
      * intros [= ->]. left. reflexivity.
      * intros [[= ->]|Hin]; [reflexivity|].
        exfalso. apply Hk0. apply in_map_iff. exists (k, v). split; [reflexivity|exact Hin].
    + rewrite (IH Hd). split.
      * intros Hin. right. exact Hin.
      * intros [[= -> _]|Hin]; [congruence | exact Hin].
Qed.

(** What the loop over the members has collected after a list of them. *)
Lemma discovered_spec (members : list (string * Member)) :
  let r := fold_left discover members [] in
  List.NoDup (List.map fst r)
  /\ (forall name obj,
        In (name, obj) r ->
        In (name, obj) members
        /\ String.prefix "_" name = false
        /\ callable obj = true
        /\ looks_like_network_creator name obj = true)
  /\ (List.NoDup (List.map fst members) ->
      forall name obj,
        In (name, obj) members ->
        String.prefix "_" name = false ->
        callable obj = true ->
        looks_like_network_creator name obj = true ->
        In (name, obj) r).
Proof.
  induction members as [|[name0 obj0] members IH] using rev_ind; simpl.
  - split; [apply List.NoDup_nil|]. split; [intros ? ? []|]. intros _ ? ? [].
  - rewrite fold_left_app. simpl.
    destruct IH as (Hnd & Hsound & Hcomplete).
    set (r := fold_left discover members []) in *.
    assert (Hkeep : forall name obj,
               In (name, obj) r ->
               In (name, obj) (members ++ [(name0, obj0)])
               /\ String.prefix "_" name = false /\ callable obj = true
               /\ looks_like_network_creator name obj = true).
    { intros name obj Hin. destruct (Hsound name obj Hin) as (H1 & H2).
      split; [apply in_or_app; left; exact H1 | exact H2]. }
    assert (Hskip : List.NoDup (List.map fst (members ++ [(name0, obj0)])) ->
               forall name obj,
                 In (name, obj) (members ++ [(name0, obj0)]) ->
                 (name, obj) <> (name0, obj0) ->
                 String.prefix "_" name = false -> callable obj = true ->
                 looks_like_network_creator name obj = true ->
                 In (name, obj) r /\ name <> name0).
    { intros Hm name obj Hin Hne Hp Hc Hl.
      rewrite List.map_app in Hm. apply List.NoDup_app_remove_r in Hm as Hm'.
      apply in_app_or in Hin. destruct Hin as [Hin|[Heq|[]]]; [|congruence].
      split; [exact (Hcomplete Hm' name obj Hin Hp Hc Hl)|].
      intros ->. rewrite <- List.map_app in Hm.
      assert (Hin' : In name0 (List.map fst members))
        by (apply in_map_iff; exists (name0, obj); split; [reflexivity|exact Hin]).
      rewrite List.map_app in Hm. simpl in Hm.
      apply List.NoDup_remove_2 in Hm. apply Hm. rewrite app_nil_r. exact Hin'. }
    unfold discover; simpl.
    destruct (String.prefix "_" name0) eqn:Hp0;
      [|destruct (callable obj0) eqn:Hc0;
        [destruct (looks_like_network_creator name0 obj0) eqn:Hl0|]].
    1,3,4: split; [exact Hnd|]; split; [exact Hkeep|];
      intros Hm name obj Hin Hp Hc Hl;
      apply (Hskip Hm name obj Hin); try assumption; intros [= -> ->]; congruence.
    split; [apply registry_set_NoDup; exact Hnd|]. split.
    + intros name obj Hin. apply (registry_set_In _ _ _ _ _ Hnd) in Hin.
      destruct Hin as [[-> ->]|[_ Hin]]; [|exact (Hkeep name obj Hin)].
      split; [apply in_or_app; right; left; reflexivity|]. auto.
    + intros Hm name obj Hin Hp Hc Hl. apply (registry_set_In _ _ _ _ _ Hnd).
      destruct (String.eqb_spec name name0) as [->|Hne].
      * left. split; [reflexivity|].
        apply in_app_or in Hin. destruct Hin as [Hin|[[= ->]|[]]]; [|reflexivity].
        exfalso. rewrite List.map_app in Hm. simpl in Hm.
        apply List.NoDup_remove_2 in Hm. apply Hm. rewrite app_nil_r.
        apply in_map_iff. exists (name0, obj). split; [reflexivity|exact Hin].
      * right. split; [exact Hne|].
        apply (Hskip Hm name obj Hin); try assumption. intros [= -> _]. congruence.
Qed.

Lemma all_defaults_true (tests : list DefaultTest) :
  all_defaults tests = Some true <-> forall t, In t tests -> t = Truth true.
Proof.
  induction tests as [|t tests IH]; simpl.
  - split; [intros _ ? [] | reflexivity].
  - destruct t as [[|]|].
    + rewrite IH. split.
      * intros H t [<-|Ht]; [reflexivity | exact (H t Ht)].
      * intros H t Ht. apply H. right. exact Ht.
    + split; [discriminate|]. intros H.
      specialize (H (Truth false) (or_introl eq_refl)). discriminate H.
    + split; [discriminate|]. intros H.
      specialize (H NoTruth (or_introl eq_refl)). discriminate H.
Qed.

Lemma can_call_without_args_iff (obj : Member) :
  can_call_without_args obj = true <->
  exists tests, signature obj = Some tests
                /\ forall t, In t tests -> t = Truth true.
Proof.
  unfold can_call_without_args. destruct (signature obj) as [tests|].
  - split.
    + intros H. exists tests. split; [reflexivity|]. apply all_defaults_true.
      destruct (all_defaults tests) as [[|]|]; [reflexivity | discriminate | discriminate].
    + intros (tests' & [= <-] & H). apply all_defaults_true in H. rewrite H.
      reflexivity.
  - split; [discriminate|]. intros (tests & H & _). discriminate H.
Qed.

Lemma looks_like_network_creator_iff (name : string) (obj : Member) :
  looks_like_network_creator name obj = true <->
  String.prefix "case" name = true
  \/ String.prefix "create_" name = true
  \/ In name known_networks
  \/ (exists tests, signature obj = Some tests
                    /\ forall t, In t tests -> t = Truth true).
Proof.
  unfold looks_like_network_creator.
  rewrite !orb_true_iff, existsb_eqb_In, can_call_without_args_iff. tauto.
Qed.

(** X8.  The discovery collects, under distinct keys, members of the module
    that are callable, are not private, and look like network creators:
    named case... or create_..., one of the known names, or with a
    signature every parameter of which passes the test of its default (a
    parameter without default fails it, and so does one whose test has no
    truth value); when the members have distinct names it collects every
    such member; without pandapower it collects nothing. *)
Theorem discovery_collects_public_callable_creators
    (members : list (string * Member)) (g : Globals) :
  let r := _get_available_networks members g in
  List.NoDup (List.map fst r)
  /\ (forall name obj,
        In (name, obj) r ->
        In (name, obj) members
        /\ String.prefix "_" name = false
        /\ callable obj = true
        /\ (String.prefix "case" name = true
            \/ String.prefix "create_" name = true
            \/ In name known_networks
            \/ (exists tests, signature obj = Some tests
                              /\ forall t, In t tests -> t = Truth true)))
  /\ (PANDAPOWER_AVAILABLE (world g) = false -> r = [])
  /\ (PANDAPOWER_AVAILABLE (world g) = true ->
      List.NoDup (List.map fst members) ->
      forall name obj,
        In (name, obj) members ->
        String.prefix "_" name = false ->
        callable obj = true ->
        (String.prefix "case" name = true
         \/ String.prefix "create_" name = true
         \/ In name known_networks
         \/ (exists tests, signature obj = Some tests
                           /\ forall t, In t tests -> t = Truth true)) ->
        registry_get name r = Some obj).
Proof.
  unfold _get_available_networks.
  destruct (PANDAPOWER_AVAILABLE (world g)); simpl.
  - destruct (discovered_spec members) as (Hnd & Hsound & Hcomplete).
    split; [exact Hnd|]. split; [|split; [discriminate|]].
    + intros name obj Hin. destruct (Hsound name obj Hin) as (H1 & H2 & H3 & H4).
      split; [exact H1|]. split; [exact H2|]. split; [exact H3|].
      apply looks_like_network_creator_iff. exact H4.
    + intros _ Hm name obj Hin Hp Hc Hl. apply (registry_get_In _ _ _ Hnd).
      apply (Hcomplete Hm name obj Hin Hp Hc).
      apply looks_like_network_creator_iff. exact Hl.
  - split; [apply List.NoDup_nil|]. split; [intros ? ? []|].
    split; [reflexivity | discriminate].
Qed.

(** A function with an array for the default of its one parameter: the test
    of that default has no truth value, and the function is collected by
    its name alone. *)
Example array_default_is_not_callable_without_args :
  can_call_without_args (mkMember true (Some [NoTruth]) (Ok example_net)) = false
  /\ _get_available_networks
       [ ("with_array", mkMember true (Some [NoTruth]) (Ok example_net));
         ("case_array", mkMember true (Some [Truth true; NoTruth]) (Ok example_net)) ]
       fresh_globals
     = [ ("case_array", mkMember true (Some [Truth true; NoTruth]) (Ok example_net)) ].
Proof. split; reflexivity. Qed.

#[global] Instance str_le_total : Total str_le.
Proof. intros a b. apply String.leb_total. Qed.

Lemma sorted_Permutation (l : list string) : Permutation (sorted l) l.
Proof. apply merge_sort_Permutation. Qed.

Lemma sorted_Sorted (l : list string) : Sorted str_le (sorted l).
Proof. apply Sorted_merge_sort. apply _. Qed.

Section CatalogueFacts.

Variable lower : string -> string.
Variable attribute_error_text : string -> string.

Lemma snoc_Permutation (l1 l2 : list string) (x : string) :
  Permutation (l1 ++ (x :: l2)) (x :: l1 ++ l2).
Proof. symmetry. apply Permutation_middle. Qed.

Lemma categorize_Permutation (c : Categories) (name : string) :
  Permutation (all_categories (categorize lower c name)) (name :: all_categories c).
Proof.
  unfold categorize, all_categories.
  destruct (String.prefix "case" name && contains "pegase" (lower name));
    [|destruct (String.prefix "case" name && contains "rte" (lower name));
      [|destruct (String.prefix "case" name);
        [|destruct (contains "cigre" (lower name))]]]; simpl.
  - rewrite <- !app_assoc. simpl.
    rewrite (app_assoc (ieee_cases c)). rewrite snoc_Permutation.
    rewrite <- app_assoc. reflexivity.
  - rewrite <- !app_assoc. simpl.
    rewrite (app_assoc (pegase_cases c)), (app_assoc (ieee_cases c)).
    rewrite snoc_Permutation. rewrite <- !app_assoc. reflexivity.
  - rewrite <- !app_assoc. simpl. apply snoc_Permutation.
  - rewrite <- !app_assoc. simpl.
    rewrite (app_assoc (rte_cases c)), (app_assoc (pegase_cases c)),
      (app_assoc (ieee_cases c)).
    rewrite snoc_Permutation. rewrite <- !app_assoc. reflexivity.
  - rewrite !app_assoc. rewrite <- Permutation_cons_append. reflexivity.
Qed.

Lemma categorize_well (c : Categories) (name : string) :
  well_categorized lower c -> well_categorized lower (categorize lower c name).
Proof.
  unfold well_categorized, categorize.
  intros (Hp & Hr & Hi & Hc & Ho).
  destruct (String.prefix "case" name) eqn:Hcase; simpl;
    [destruct (contains "pegase" (lower name)) eqn:Hpeg; simpl;
     [|destruct (contains "rte" (lower name)) eqn:Hrte; simpl]
    |destruct (contains "cigre" (lower name)) eqn:Hcig; simpl];
    refine (conj _ (conj _ (conj _ (conj _ _)))); intros x Hx;
    try (apply in_app_or in Hx; destruct Hx as [Hx|[<-|[]]]); auto.
Qed.

Lemma fold_categorize (l : list string) :
  forall c,
    well_categorized lower c ->
    well_categorized lower (fold_left (categorize lower) l c)
    /\ Permutation (all_categories (fold_left (categorize lower) l c))
                   (all_categories c ++ l).
Proof.
  induction l as [|name l IH]; intros c Hc; simpl.
  - split; [exact Hc|]. rewrite app_nil_r. reflexivity.
  - destruct (IH _ (categorize_well c name Hc)) as [Hw Hp]. split; [exact Hw|].
    rewrite Hp, categorize_Permutation. simpl. apply Permutation_middle.
Qed.

(** X9.  The categories of [get_available_networks] partition the
    catalogue: the five lists together are a rearrangement of its names,
    so a name of the catalogue is in exactly one of them as often as it is
    a key; [total_networks] is the sum of their sizes; [all_networks] is
    the sorted list of the names; and each list holds the names that the
    conditions of the loop send to it. *)
Theorem categories_partition_the_catalogue (members : list (string * Member))
    (g : Globals) :
  PANDAPOWER_AVAILABLE (world g) = true ->
  exists c all_networks,
    let d := fst (get_available_networks lower members g) in
    let names := List.map fst (fst (_get_network_functions members g)) in
    dict_get "status" d = Some (VStr "success")
    /\ dict_get "categories" d
       = Some (VDict [ ("ieee_cases", names_value (ieee_cases c));
                       ("pegase_cases", names_value (pegase_cases c));
                       ("rte_cases", names_value (rte_cases c));
                       ("cigre_networks", names_value (cigre_networks c));
                       ("other_networks", names_value (other_networks c)) ])
    /\ dict_get "all_networks" d = Some (names_value all_networks)
    /\ dict_get "total_networks" d = Some (len (all_categories c))
    /\ Permutation (all_categories c) names
    /\ Permutation all_networks names
    /\ Sorted str_le all_networks
    /\ well_categorized lower c.
Proof.
  intros Hav. unfold get_available_networks. rewrite Hav. simpl.
  destruct (_get_network_functions members g) as [network_functions g'] eqn:Hnf.
  simpl.
  destruct (fold_categorize (sorted (List.map fst network_functions))
              (mkCategories [] [] [] [] [])) as [Hw Hp].
  { unfold well_categorized. simpl.
    refine (conj _ (conj _ (conj _ (conj _ _)))); intros ? []. }
  simpl in Hp.
  pose proof (Permutation_trans Hp (sorted_Permutation _)) as Hp'. clear Hp.
  rename Hp' into Hp.
  eexists. eexists.
  split; [reflexivity|]. split; [reflexivity|]. split; [reflexivity|].
  split; [|split; [exact Hp|split; [apply sorted_Permutation|split;
           [apply sorted_Sorted | exact Hw]]]].
  simpl. unfold len. do 3 f_equal.
  rewrite (Permutation_length Hp), length_map. reflexivity.
Qed.

End CatalogueFacts.

Lemma registry_get_Some_In (d : Registry) (k : string) (v : Member) :
  registry_get k d = Some v -> In (k, v) d.
Proof.
  induction d as [|[k0 v0] d IH]; simpl; [discriminate|].
  destruct (String.eqb_spec k0 k) as [->|Hne].
  - intros [= ->]. left. reflexivity.
  - intros H. right. exact (IH H).
Qed.

(** The first pair whose key passes a test is the pair the dictionary holds
    for that key. *)
Lemma find_by_key_get (p : string -> bool) (d : Registry) (k : string) (v : Member) :
  List.find (fun kv => p (fst kv)) d = Some (k, v) -> registry_get k d = Some v.
Proof.
  induction d as [|[k0 v0] d IH]; simpl; [discriminate|].
  destruct (p k0) eqn:Hp0.
  - intros [= -> ->]. rewrite String.eqb_refl. reflexivity.
  - intros H. destruct (String.eqb_spec k0 k) as [->|Hne]; [|exact (IH H)].
    apply find_some in H. simpl in H. destruct H as [_ Hp]. congruence.
Qed.

Section CreateTestNetwork.

Variable lower : string -> string.
Variable attribute_error_text : string -> string.

Lemma find_network_None (r : Registry) (network_type : string) :
  find_network lower r network_type = None <->
  forall k obj, In (k, obj) r -> lower k <> lower network_type.
Proof.
  unfold find_network. split.
  - destruct (registry_get network_type r); [discriminate|].
    intros Hf k obj Hin Heq.
    pose proof (find_none _ _ Hf (k, obj) Hin) as Hn. simpl in Hn.
    rewrite Heq, String.eqb_refl in Hn. discriminate.
  - intros Hno. destruct (registry_get network_type r) as [obj|] eqn:Hg.
    + exfalso. exact (Hno _ _ (registry_get_Some_In _ _ _ Hg) eq_refl).
    + destruct (List.find _ r) as [[k obj]|] eqn:Hf; [|reflexivity].
      apply find_some in Hf. simpl in Hf. destruct Hf as [Hin Heq].
      apply String.eqb_eq in Heq. exfalso. exact (Hno k obj Hin Heq).
Qed.

Lemma find_network_get (r : Registry) (network_type key : string) (obj : Member) :
  find_network lower r network_type = Some (key, obj) ->
  registry_get key r = Some obj
  /\ lower key = lower network_type
  /\ (registry_get network_type r <> None -> key = network_type).
Proof.
  unfold find_network.
  destruct (registry_get network_type r) as [obj'|] eqn:Hg.
  - intros [= <- <-]. split; [exact Hg|]. split; reflexivity.
  - intros Hf. split; [|split; [|congruence]].
    + exact (find_by_key_get (fun k => String.eqb (lower k) (lower network_type))
               r key obj Hf).
    + apply find_some in Hf. simpl in Hf. apply String.eqb_eq. apply Hf.
Qed.

Lemma _get_network_functions_world (members : list (string * Member)) (g : Globals) :
  world (snd (_get_network_functions members g)) = world g.
Proof.
  unfold _get_network_functions. destruct (_NETWORK_FUNCTIONS_CACHE g); reflexivity.
Qed.

(** X10.  [create_test_network] answers "Unknown network type" exactly when
    no key of the catalogue equals the requested type up to case; the
    answer lists the sorted names of the catalogue. *)
Theorem unknown_network_type_iff_no_key_matches
    (members : list (string * Member)) (network_type : string) (g : Globals) :
  PANDAPOWER_AVAILABLE (world g) = true ->
  let r := fst (_get_network_functions members g) in
  (fst (create_test_network lower attribute_error_text members network_type g)
     = unknown_network_type r network_type
   <-> forall k obj, In (k, obj) r -> lower k <> lower network_type)
  /\ exists names,
       dict_get "available_types" (unknown_network_type r network_type)
         = Some (names_value names)
       /\ Permutation names (List.map fst r) /\ Sorted str_le names.
Proof.
  intros Hav r. split.
  - rewrite <- find_network_None. subst r.
    unfold create_test_network. rewrite Hav. simpl.
    destruct (_get_network_functions members g) as [nf g'] eqn:Hnf. simpl.
    destruct (find_network lower nf network_type) as [[key obj]|].
    + split; [|discriminate].
      destruct (call obj) as [n|e]; [|discriminate].
      destruct (network_info attribute_error_text n); discriminate.
    + split; reflexivity.
  - eexists. split; [reflexivity|].
    split; [apply sorted_Permutation | apply sorted_Sorted].
Qed.

(** X11.  When no network is created, because the type is unknown or
    because the creator raises, the call returns the status "error" and
    the session keeps its active network and its store. *)
Theorem failed_creation_keeps_the_active_network
    (members : list (string * Member)) (network_type : string) (g : Globals) :
  PANDAPOWER_AVAILABLE (world g) = true ->
  let r := fst (_get_network_functions members g) in
  find_network lower r network_type = None
  \/ (exists key obj e, find_network lower r network_type = Some (key, obj)
                        /\ call obj = Raise e) ->
  world (snd (create_test_network lower attribute_error_text members network_type g))
  = world g
  /\ dict_get "status"
       (fst (create_test_network lower attribute_error_text members network_type g))
     = Some (VStr "error")
  /\ forall key obj e,
       find_network lower r network_type = Some (key, obj) -> call obj = Raise e ->
       fst (create_test_network lower attribute_error_text members network_type g)
       = [ ("status", VStr "error"); ("message", VStr (str e)) ].
Proof.
  intros Hav r H. subst r.
  pose proof (_get_network_functions_world members g) as Hw.
  unfold create_test_network. rewrite Hav. simpl.
  destruct (_get_network_functions members g) as [nf g'] eqn:Hnf. simpl in *.
  destruct H as [Hf | (key & obj & e & Hf & Hc)]; rewrite Hf.
  - split; [exact Hw|]. split; [reflexivity | discriminate].
  - rewrite Hc. split; [exact Hw|]. split; [reflexivity|].
    intros key' obj' e' [= <- <-] Hc'. rewrite Hc in Hc'. injection Hc' as <-.
    reflexivity.
Qed.

Lemma create_test_network_world (members : list (string * Member))
    (network_type : string) (g : Globals) (key : string) (obj : Member) (n : Net) :
  PANDAPOWER_AVAILABLE (world g) = true ->
  find_network lower (fst (_get_network_functions members g)) network_type
    = Some (key, obj) ->
  call obj = Ok n ->
  world (snd (create_test_network lower attribute_error_text members network_type g))
  = install n (world g).
Proof.
  intros Hav Hf Hc.
  pose proof (_get_network_functions_world members g) as Hw.
  unfold create_test_network. rewrite Hav. simpl.
  destruct (_get_network_functions members g) as [nf g'] eqn:Hnf. simpl in *.
  rewrite Hf, Hc.
  destruct (network_info attribute_error_text n); simpl; rewrite Hw; reflexivity.
Qed.

Lemma create_test_network_value (members : list (string * Member))
    (network_type : string) (g : Globals) (key : string) (obj : Member) (n : Net) :
  PANDAPOWER_AVAILABLE (world g) = true ->
  find_network lower (fst (_get_network_functions members g)) network_type
    = Some (key, obj) ->
  call obj = Ok n ->
  fst (create_test_network lower attribute_error_text members network_type g)
  = match network_info attribute_error_text n with
    | Ok info => [ ("status", VStr "success");
                   ("message", VStr ("Created " +:+ key +:+ " test network"));
                   ("network_info", VDict info) ]
    | Raise e => [ ("status", VStr "error"); ("message", VStr (str e)) ]
    end.
Proof.
  intros Hav Hf Hc.
  unfold create_test_network. rewrite Hav. simpl.
  destruct (_get_network_functions members g) as [nf g'] eqn:Hnf. simpl in *.
  rewrite Hf, Hc.
  destruct (network_info attribute_error_text n); reflexivity.
Qed.

Lemma network_info_counts (n : Net) (info : Dict) :
  network_info attribute_error_text n = Ok info ->
  dict_get "lines" info = Some (len (line n))
  /\ dict_get "transformers" info = Some (len (trafo n))
  /\ dict_get "generators" info = Some (len (gen n))
  /\ exists bus, getitem n "bus" = Some bus /\ dict_get "buses" info = Some (len bus).
Proof.
  unfold network_info, getattr. intros Hinfo.
  destruct (getitem n "bus") as [bus|]; [|discriminate].
  destruct (getitem n "load") as [load|]; [|discriminate].
  destruct (getitem n "ext_grid") as [ext_grid|]; [|discriminate].
  injection Hinfo as <-. repeat split. exists bus. split; reflexivity.
Qed.

(** X12.  When the creator returns a network, that network becomes the
    active one, as a new object of the store, before its tables are
    counted: the accessor returns it afterwards, whether the call then
    answers with the counts or, a table missing, with an error.  The
    creator called is the one the catalogue holds for the requested type
    when it is a key, else for the first key equal to it up to case. *)
Theorem created_network_becomes_active
    (members : list (string * Member)) (network_type : string) (g : Globals)
    (key : string) (obj : Member) (n : Net) :
  PANDAPOWER_AVAILABLE (world g) = true ->
  let r := fst (_get_network_functions members g) in
  find_network lower r network_type = Some (key, obj) ->
  call obj = Ok n ->
  let out := create_test_network lower attribute_error_text members network_type g in
  registry_get key r = Some obj
  /\ lower key = lower network_type
  /\ (registry_get network_type r <> None -> key = network_type)
  /\ objs (world (snd out)) = objs (world g) ++ [n]
  /\ _get_network (world (snd out)) = (Ok (length (objs (world g))), world (snd out))
  /\ (forall info, network_info attribute_error_text n = Ok info ->
        fst out = [ ("status", VStr "success");
                    ("message", VStr ("Created " +:+ key +:+ " test network"));
                    ("network_info", VDict info) ]
        /\ dict_get "lines" info = Some (len (line n))
        /\ dict_get "transformers" info = Some (len (trafo n))
        /\ dict_get "generators" info = Some (len (gen n))
        /\ exists bus, getitem n "bus" = Some bus /\ dict_get "buses" info = Some (len bus))
  /\ (forall e, network_info attribute_error_text n = Raise e ->
        fst out = [ ("status", VStr "error"); ("message", VStr (str e)) ]).
Proof.
  intros Hav r Hf Hc out. subst r out.
  destruct (find_network_get _ _ _ _ Hf) as (Hg & Hl & Hx).
  split; [exact Hg|]. split; [exact Hl|]. split; [exact Hx|].
  rewrite (create_test_network_world members network_type g key obj n Hav Hf Hc).
  rewrite (create_test_network_value members network_type g key obj n Hav Hf Hc).
  split; [reflexivity|]. split; [reflexivity|]. split.
  - intros info Hinfo. rewrite Hinfo. split; [reflexivity|].
    exact (network_info_counts n info Hinfo).
  - intros e Hinfo. rewrite Hinfo. reflexivity.
Qed.

(** X13.  The catalogue is fixed at its first use: once a tool has built
    it, the tools answer from it whatever the module holds later. *)
Theorem catalogue_is_fixed_at_first_use
    (members members' : list (string * Member)) (network_type : string)
    (g : Globals) :
  let g1 := snd (get_available_networks lower members g) in
  create_test_network lower attribute_error_text members' network_type g1
  = create_test_network lower attribute_error_text members network_type g1
  /\ get_available_networks lower members' g1 = get_available_networks lower members g1
  /\ (PANDAPOWER_AVAILABLE (world g) = true ->
      _NETWORK_FUNCTIONS_CACHE g = None ->
      _NETWORK_FUNCTIONS_CACHE g1 = Some (_get_available_networks members g)).
Proof.
  unfold get_available_networks, create_test_network, _get_network_functions.
  destruct (PANDAPOWER_AVAILABLE (world g)) eqn:Hav; simpl.
  - destruct (_NETWORK_FUNCTIONS_CACHE g) as [nf|] eqn:Hcache; simpl;
      rewrite ?Hav, ?Hcache; simpl; repeat split; try reflexivity; discriminate.
  - rewrite Hav. simpl. repeat split; discriminate.
Qed.

End CreateTestNetwork.

Section CreateThenAnalyse.

Variable runpp : Net -> SolveOutcome.
Variable repr : string -> string.
Variable lower : string -> string.
Variable attribute_error_text : string -> string.

(** X14.  A contingency analysis of the lines of a network that
    [create_test_network] has just created works on that network: when its
    final solve returns, it reports as many results as the creation
    reported lines. *)
Theorem contingency_results_match_the_lines_created
    (members : list (string * Member)) (network_type : string) (g : Globals)
    (key : string) (obj : Member) (n n2 : Net) (info : Dict) :
  PANDAPOWER_AVAILABLE (world g) = true ->
  find_network lower (fst (_get_network_functions members g)) network_type
    = Some (key, obj) ->
  call obj = Ok n ->
  network_info attribute_error_text n = Ok info ->
  runpp (net_after (runpp n)) = Returns n2 ->
  let created := create_test_network lower attribute_error_text members network_type g in
  exists d results,
    dict_get "network_info" (fst created) = Some (VDict info)
    /\ fst (run_contingency_analysis runpp repr "line" None (world (snd created))) = Ok d
    /\ dict_get "status" d = Some (VStr "success")
    /\ contingency_results d = Some results
    /\ dict_get "lines" info = Some (len results).
Proof.
  intros Hav Hf Hc Hinfo Hfin created. subst created.
  rewrite (create_test_network_world lower attribute_error_text members
             network_type g key obj n Hav Hf Hc).
  rewrite (create_test_network_value lower attribute_error_text members
             network_type g key obj n Hav Hf Hc).
  rewrite Hinfo.
  destruct (network_info_counts attribute_error_text n info Hinfo) as (Hlines & _).
  assert (Hl : objs (install n (world g)) !! length (objs (world g)) = Some n)
    by (simpl; apply lookup_snoc).
  rewrite (run_contingency_analysis_spec runpp repr (install n (world g))
             (length (objs (world g))) n "line" None (List.map fst (line n))
             Hav eq_refl Hl eq_refl).
  rewrite Hfin. simpl. eexists. eexists.
  split; [reflexivity|]. split; [reflexivity|]. split; [reflexivity|].
  split; [reflexivity|].
  rewrite Hlines. unfold len. rewrite !length_map. reflexivity.
Qed.

End CreateThenAnalyse.

(** ** Loading a network from a file *)

Lemma endswith_String (suffix : string) (c : Ascii.ascii) (s : string) :
  endswith suffix (String c s)
  = String.eqb suffix (String c s) || endswith suffix s.
Proof. reflexivity. Qed.

Lemma endswith_json_not_p (s : string) :
  endswith ".json" s = true -> endswith ".p" s = false.
Proof.
  induction s as [|c s IH]; [discriminate|].
  rewrite !endswith_String. intros H. apply orb_true_iff in H.
  apply orb_false_iff. destruct H as [H|H].
  - apply String.eqb_eq in H. injection H as <- <-. split; reflexivity.
  - split; [|exact (IH H)].
    destruct (String.eqb_spec ".p" (String c s)) as [Heq|]; [|reflexivity].
    injection Heq as <- <-. discriminate H.
Qed.

Section LoadNetworkFacts.

Variable from_json : string -> ReadOutcome.
Variable from_pickle : string -> ReadOutcome.
Variable attribute_error_text : string -> string.

(** X15.  [load_network] reads a file by the extension of its path: a path
    ending in .json goes to the JSON reader and never to the pickle reader,
    a path ending in .p to the pickle reader, and any other path is
    refused without reading.  The network read becomes the active network,
    as a new object of the store; when nothing is read, or the reader
    raises, the call returns the status "error" and the session is as it
    was. *)
Theorem load_network_reads_by_extension (file_path : string) (g : Globals) :
  PANDAPOWER_AVAILABLE (world g) = true ->
  let out := load_network from_json from_pickle attribute_error_text file_path g in
  (endswith ".json" file_path = true ->
     read_by_extension from_json from_pickle file_path = Some (from_json file_path)
     /\ endswith ".p" file_path = false)
  /\ (endswith ".json" file_path = false -> endswith ".p" file_path = true ->
        read_by_extension from_json from_pickle file_path = Some (from_pickle file_path))
  /\ (endswith ".json" file_path = false -> endswith ".p" file_path = false ->
        out = ([ ("status", VStr "error");
                 ("message", VStr "Unsupported file format. Use .json or .p files.") ], g))
  /\ (forall n, read_by_extension from_json from_pickle file_path = Some (Read n) ->
        world (snd out) = install n (world g)
        /\ _get_network (world (snd out)) = (Ok (length (objs (world g))), world (snd out))
        /\ objs (world (snd out)) !! length (objs (world g)) = Some n)
  /\ ((forall n, read_by_extension from_json from_pickle file_path <> Some (Read n)) ->
        snd out = g /\ dict_get "status" (fst out) = Some (VStr "error"))
  /\ (read_by_extension from_json from_pickle file_path = Some FileNotFoundError ->
        dict_get "message" (fst out) = Some (VStr ("File not found: " +:+ file_path))).
Proof.
  intros Hav out. subst out. unfold load_network, read_by_extension.
  rewrite Hav. simpl.
  split; [|split; [|split; [|split; [|split]]]].
  - intros H. rewrite H. split; [reflexivity | exact (endswith_json_not_p _ H)].
  - intros H1 H2. rewrite H1, H2. reflexivity.
  - intros H1 H2. rewrite H1, H2. reflexivity.
  - intros n Hr. rewrite Hr.
    destruct (loaded_network_info attribute_error_text n); simpl;
      (split; [reflexivity|]); (split; [reflexivity | apply lookup_snoc]).
  - intros Hno.
    destruct (if endswith ".json" file_path then Some (from_json file_path)
              else if endswith ".p" file_path then Some (from_pickle file_path)
              else None) as [[n| |e]|]; try (split; reflexivity).
    exfalso. exact (Hno n eq_refl).
  - intros Hr. rewrite Hr. reflexivity.
Qed.

End LoadNetworkFacts.

(** ** The further properties on the fixtures *)

Example endswith_examples :
  endswith ".json" "grid.json" = true
  /\ endswith ".p" "grid.json" = false
  /\ endswith ".p" "grid.p" = true
  /\ endswith ".json" "json" = false
  /\ endswith ".p" "grid.py" = false.
Proof. repeat split; reflexivity. Qed.

Example contains_examples :
  contains "pegase" "case1354pegase" = true
  /\ contains "rte" "case9" = false
  /\ contains "cigre" "create_cigre_network_mv" = true
  /\ contains "" "" = true.
Proof. repeat split; reflexivity. Qed.

Example sorted_example :
  sorted ["case9"; "GBnetwork"; "case1354pegase"; "_x"]
  = ["GBnetwork"; "_x"; "case1354pegase"; "case9"].
Proof. vm_compute. reflexivity. Qed.

Example example_catalogue :
  List.map fst (_get_available_networks example_members fresh_globals)
  = ["GBnetwork"; "case1354pegase"; "case9"; "create_cigre_network_mv"].
Proof. vm_compute. reflexivity. Qed.

Lemma early_errors_leave_the_session_untouched_witness :
  snd (run_contingency_analysis toy_runpp quoted "line" None (mkWorld true None []))
  = mkWorld true None []
  /\ exists d,
       fst (run_contingency_analysis toy_runpp quoted "line" None (mkWorld true None []))
       = Ok d
       /\ dict_get "status" d = Some (VStr "error")
       /\ contingency_results d = None.
Proof.
  exact (early_errors_leave_the_session_untouched toy_runpp quoted
           (mkWorld true None []) "line" None (or_intror (or_introl eq_refl))).
Defined.

Lemma other_networks_are_untouched_witness :
  let w := mkWorld true (Some 1%nat) [dead_net; example_net] in
  let w' := snd (run_contingency_analysis toy_runpp quoted "line" None w) in
  length (objs w') = 5%nat
  /\ objs w' !! 0%nat = Some dead_net
  /\ objs w' !! 2%nat = Some example_pristine.
Proof.
  destruct (other_networks_are_untouched toy_runpp quoted
              (mkWorld true (Some 1%nat) [dead_net; example_net])
              1%nat example_net "line" None [0; 1]
              eq_refl eq_refl eq_refl eq_refl)
    as (Hlen & Hother & Hpristine & _).
  split; [exact Hlen|]. split; [|exact Hpristine].
  apply (Hother 0%nat dead_net); [discriminate | reflexivity].
Defined.

Lemma entry_depends_on_its_index_alone_witness :
  exists d d' results results' entry,
    fst (run_contingency_analysis toy_runpp quoted "line" (Some [0; 1])
           (world_of example_net)) = Ok d
    /\ fst (run_contingency_analysis toy_runpp quoted "line" (Some [1; 1; 0])
              (world_of example_net)) = Ok d'
    /\ contingency_results d = Some results
    /\ contingency_results d' = Some results'
    /\ results !! 1%nat = Some entry
    /\ results' !! 0%nat = Some entry.
Proof.
  destruct (entry_depends_on_its_index_alone toy_runpp quoted (world_of example_net)
              0%nat example_net "line" [0; 1] [1; 1; 0]
              (solved_by_toy example_pristine) eq_refl eq_refl eq_refl eq_refl)
    as (d & d' & _ & results & results' & Hd & Hd' & _ & Hr & Hr' & _ & Hsame).
  destruct (Hsame 1%nat 0%nat 1 eq_refl eq_refl) as (entry & He & He').
  exists d, d', results, results', entry.
  repeat split; assumption.
Defined.

Lemma active_network_left_as_by_one_solve_witness :
  objs (snd (run_contingency_analysis toy_runpp quoted "line" None
               (world_of example_net))) !! 0%nat
  = Some (net_after (toy_runpp example_net))
  /\ objs (snd (pp_runpp toy_runpp 0%nat (world_of example_net))) !! 0%nat
     = Some (net_after (toy_runpp example_net)).
Proof.
  exact (active_network_left_as_by_one_solve toy_runpp quoted
           toy_runpp_topology toy_runpp_reads_topology
           (world_of example_net) 0%nat example_net "line" None [0; 1]
           eq_refl eq_refl eq_refl eq_refl).
Defined.

Lemma earlier_calls_do_not_show_in_later_reports_witness :
  fst (run_contingency_analysis toy_runpp quoted "line" None
         (snd (run_contingency_analysis toy_runpp quoted "trafo" (Some [7])
                 (world_of example_net))))
  = fst (run_contingency_analysis toy_runpp quoted "line" None (world_of example_net)).
Proof.
  exact (earlier_calls_do_not_show_in_later_reports toy_runpp quoted
           toy_runpp_topology toy_runpp_reads_topology
           (world_of example_net) "trafo" "line" (Some [7]) None).
Defined.

Lemma categories_partition_the_catalogue_witness :
  exists c all_networks,
    dict_get "all_networks"
      (fst (get_available_networks lowercase example_members fresh_globals))
    = Some (names_value all_networks)
    /\ dict_get "total_networks"
         (fst (get_available_networks lowercase example_members fresh_globals))
       = Some (len (all_categories c))
    /\ Permutation (all_categories c)
         ["GBnetwork"; "case1354pegase"; "case9"; "create_cigre_network_mv"]
    /\ Sorted str_le all_networks.
Proof.
  destruct (categories_partition_the_catalogue lowercase example_members
              fresh_globals eq_refl)
    as (c & all_networks & _ & _ & Hall & Htotal & Hperm & _ & Hsorted & _).
  exists c, all_networks.
  split; [exact Hall|]. split; [exact Htotal|]. split; [exact Hperm | exact Hsorted].
Defined.

Lemma unknown_network_type_iff_no_key_matches_witness :
  let r := fst (_get_network_functions example_members fresh_globals) in
  (fst (create_test_network lowercase no_attribute example_members "case10" fresh_globals)
     = unknown_network_type r "case10"
   <-> forall k obj, In (k, obj) r -> lowercase k <> lowercase "case10")
  /\ exists names,
       dict_get "available_types" (unknown_network_type r "case10")
         = Some (names_value names)
       /\ Permutation names (List.map fst r) /\ Sorted str_le names.
Proof.
  exact (unknown_network_type_iff_no_key_matches lowercase no_attribute
           example_members "case10" fresh_globals eq_refl).
Defined.

Lemma failed_creation_keeps_the_active_network_witness :
  world (snd (create_test_network lowercase no_attribute example_members
                "Create_CIGRE_network_MV" fresh_globals))
  = world fresh_globals
  /\ fst (create_test_network lowercase no_attribute example_members
            "Create_CIGRE_network_MV" fresh_globals)
     = [ ("status", VStr "error"); ("message", VStr "cigre data missing") ].
Proof.
  destruct (failed_creation_keeps_the_active_network lowercase no_attribute
              example_members "Create_CIGRE_network_MV" fresh_globals eq_refl
              (or_intror
                 (ex_intro _ "create_cigre_network_mv"
                    (ex_intro _ (mkMember true (Some [Truth true])
                                   (Raise (mkExn false "cigre data missing")))
                       (ex_intro _ (mkExn false "cigre data missing")
                          (conj eq_refl eq_refl))))))
    as (Hw & _ & Hmsg).
  split; [exact Hw|].
  exact (Hmsg _ _ _ eq_refl eq_refl).
Defined.

Lemma created_network_becomes_active_witness :
  let out := create_test_network lowercase no_attribute example_members "CASE9"
               fresh_globals in
  objs (world (snd out)) = [example_net]
  /\ _get_network (world (snd out)) = (Ok 0%nat, world (snd out))
  /\ dict_get "message" (fst out) = Some (VStr "Created case9 test network").
Proof.
  destruct (created_network_becomes_active lowercase no_attribute example_members
              "CASE9" fresh_globals "case9" (creator example_net) example_net
              eq_refl eq_refl eq_refl)
    as (_ & _ & _ & Hobjs & Hget & Hok & _).
  split; [exact Hobjs|]. split; [exact Hget|].
  destruct (Hok _ eq_refl) as (Hd & _). rewrite Hd. reflexivity.
Defined.

Lemma contingency_results_match_the_lines_created_witness :
  let created := create_test_network lowercase no_attribute example_members "case9"
                   fresh_globals in
  exists d results info,
    dict_get "network_info" (fst created) = Some (VDict info)
    /\ fst (run_contingency_analysis toy_runpp quoted "line" None (world (snd created)))
       = Ok d
    /\ contingency_results d = Some results
    /\ dict_get "lines" info = Some (len results)
    /\ length results = 2%nat.
Proof.
  destruct (network_info no_attribute example_net) as [info|e] eqn:Hinfo;
    [|discriminate Hinfo].
  destruct (contingency_results_match_the_lines_created toy_runpp quoted lowercase
              no_attribute example_members "case9" fresh_globals "case9"
              (creator example_net) example_net (solved_by_toy example_pristine) info
              eq_refl eq_refl eq_refl Hinfo eq_refl)
    as (d & results & Hcreated & Hd & _ & Hr & Hlines).
  exists d, results, info.
  split; [exact Hcreated|]. split; [exact Hd|]. split; [exact Hr|].
  split; [exact Hlines|].
  injection Hinfo as <-. simpl in Hlines. injection Hlines as Hlen.
  apply Nat2Z.inj. symmetry. exact Hlen.
Defined.

Lemma load_network_reads_by_extension_witness :
  let out := load_network example_from_json example_from_pickle no_attribute
               "grid.json" fresh_globals in
  world (snd out) = install example_net (world fresh_globals)
  /\ _get_network (world (snd out)) = (Ok 0%nat, world (snd out))
  /\ objs (world (snd out)) !! 0%nat = Some example_net.
Proof.
  destruct (load_network_reads_by_extension example_from_json example_from_pickle
              no_attribute "grid.json" fresh_globals eq_refl)
    as (_ & _ & _ & Hread & _).
  exact (Hread example_net eq_refl).
Defined.
